(** * The stats cache of the items API: [backend/src/utils/stats.js] and
      the [GET /api/stats] route.

    The development embeds the JavaScript of the two modules in Rocq:
    - the JSON values that [JSON.parse] hands to [calculateStats], with the
      coercions of the [+] and [/] operators that [mean] applies to them;
    - the module state ([statsCache], [debounceTimer]), the event loop's
      pending timeouts and the store file as one [world] record, threaded
      through a state-and-exception monad in which a [throw] keeps the
      mutations made before it;
    - the functions [mean], [calculateStats], [initStatsCache], [getStats],
      the [fs.watch] listener, the [setTimeout] callback and the route
      handler, each written after its source;
    - a small machine that delivers external events (start-up, file
      notifications, store writes, the passing of time, HTTP reads). *)

From Stdlib Require Import ZArith List String Ascii Bool Arith Lia.
From Stdlib Require Import SpecFloat.
Set Warnings "-register-all".
Import ListNotations.
Local Open Scope string_scope.
Local Open Scope list_scope.

(* ===================================================================== *)
(** * JavaScript numbers: IEEE 754 binary64 *)
(* ===================================================================== *)

Module Num.

Definition number := spec_float.

Definition prec : Z := 53.
Definition emax : Z := 1024.

Definition zero : number := S754_zero false.
Definition NaN : number := S754_nan.

(** An integer as a Number (round to nearest, ties to even). *)
Definition of_Z (z : Z) : number := binary_normalize prec emax z 0 false.
Definition of_nat (n : nat) : number := of_Z (Z.of_nat n).

Definition add : number -> number -> number := SFadd prec emax.
Definition div : number -> number -> number := SFdiv prec emax.

(** [x === y] on two Numbers: [NaN] equals nothing, [+0 === -0]. *)
Definition strict_eq : number -> number -> bool := SFeqb.

End Num.

Abbreviation number := Num.number.

(* ===================================================================== *)
(** * Values, exceptions and the pure part of the language *)
(* ===================================================================== *)

(** What [JSON.parse] returns, plus [undefined], which reading an absent
    property produces.  An object is the list of its own properties; a
    lookup takes the first binding of a name. *)
Inductive value : Type :=
| VUndefined
| VNull
| VBool (b : bool)
| VNumber (n : number)
| VString (s : string)
| VArray (elems : list value)
| VObject (props : list (string * value)).

(** The exceptions that reach the code. *)
Inductive exn : Type :=
| SystemError (code : string)            (* a rejected [fs.readFile] *)
| SyntaxError                            (* thrown by [JSON.parse] *)
| TypeError (msg : string)               (* thrown by the language itself *)
| HttpError (msg : string) (status : nat). (* [new Error(msg)] with [err.status] set *)

Inductive result (A : Type) : Type :=
| Ok (a : A)
| Err (e : exn).
Arguments Ok {A} a.
Arguments Err {A} e.

Definition rbind {A B} (r : result A) (k : A -> result B) : result B :=
  match r with
  | Ok a => k a
  | Err e => Err e
  end.

Fixpoint lookup (name : string) (props : list (string * value)) : option value :=
  match props with
  | [] => None
  | (k, v) :: rest => if String.eqb k name then Some v else lookup name rest
  end.

Definition has_own (name : string) (props : list (string * value)) : bool :=
  match lookup name props with Some _ => true | None => false end.

(** [o.name] for a name that no built-in prototype defines (here [price]):
    a [TypeError] on [null] and [undefined], the own property of an object,
    [undefined] everywhere else. *)
Definition get_prop (name : string) (v : value) : result value :=
  match v with
  | VUndefined | VNull =>
      Err (TypeError ("Cannot read properties of null or undefined: " ++ name)%string)
  | VObject props =>
      Ok (match lookup name props with Some x => x | None => VUndefined end)
  | VBool _ | VNumber _ | VString _ | VArray _ => Ok VUndefined
  end.

(** [v === 0]. *)
Definition strict_eq_zero (v : value) : bool :=
  match v with
  | VNumber n => Num.strict_eq n Num.zero
  | _ => false
  end.

(** [items.length === 0].  The length of an array or of a string is a
    non-negative integer below 2^32, so as a Number it is [=== 0] exactly
    when the count is [0]; the count is kept as a [nat].  Any other object
    has the [length] it was given as an own property, if any. *)
Definition length_is_zero (items : value) : result bool :=
  match items with
  | VUndefined | VNull =>
      Err (TypeError "Cannot read properties of null or undefined: length")
  | VBool _ | VNumber _ => Ok false
  | VString s => Ok (Nat.eqb (String.length s) 0)
  | VArray elems => Ok (Nat.eqb (List.length elems) 0)
  | VObject props =>
      Ok (match lookup "length" props with
          | Some v => strict_eq_zero v
          | None => false
          end)
  end.

Section Coercions.

(** The two conversions between Numbers and Strings are built-ins of the
    language ([Number::toString] and [StringToNumber]); the code only
    reaches them when a price is not a Number. *)
Variable NumberToString : number -> string.
Variable StringToNumber : string -> number.

(** [ToString] on a value.  An array goes through [Array.prototype.join];
    an object prints as [[object Object]] unless an own property shadows
    [toString], which [JSON.parse] can only bind to something that is not
    callable, and then no conversion is left. *)
Fixpoint ToString (v : value) : result string :=
  match v with
  | VUndefined => Ok "undefined"
  | VNull => Ok "null"
  | VBool true => Ok "true"
  | VBool false => Ok "false"
  | VNumber n => Ok (NumberToString n)
  | VString s => Ok s
  | VArray elems =>
      (fix join (l : list value) : result string :=
         match l with
         | [] => Ok ""
         | x :: rest =>
             rbind (match x with
                    | VUndefined | VNull => Ok ""
                    | _ => ToString x
                    end)
                   (fun sx =>
                      match rest with
                      | [] => Ok sx
                      | _ :: _ => rbind (join rest) (fun sr => Ok (sx ++ "," ++ sr)%string)
                      end)
         end) elems
  | VObject props =>
      if has_own "toString" props
      then Err (TypeError "Cannot convert object to primitive value")
      else Ok "[object Object]"
  end.

(** [ToPrimitive]: arrays and objects become strings. *)
Definition ToPrimitive (v : value) : result value :=
  match v with
  | VArray _ | VObject _ => rbind (ToString v) (fun s => Ok (VString s))
  | _ => Ok v
  end.

(** [ToNumber] on a primitive. *)
Definition ToNumber (p : value) : number :=
  match p with
  | VUndefined => Num.NaN
  | VNull => Num.zero
  | VBool true => Num.of_Z 1
  | VBool false => Num.zero
  | VNumber n => n
  | VString s => StringToNumber s
  | VArray _ | VObject _ => Num.NaN  (* not a primitive: unreachable after [ToPrimitive] *)
  end.

Definition is_string (p : value) : bool :=
  match p with VString _ => true | _ => false end.

(** [a + b]: concatenation as soon as one primitive is a string. *)
Definition js_add (a b : value) : result value :=
  rbind (ToPrimitive a) (fun pa =>
  rbind (ToPrimitive b) (fun pb =>
    if is_string pa || is_string pb
    then rbind (ToString pa) (fun sa =>
         rbind (ToString pb) (fun sb => Ok (VString (sa ++ sb)%string)))
    else Ok (VNumber (Num.add (ToNumber pa) (ToNumber pb))))).

(** [a / b]. *)
Definition js_div (a b : value) : result number :=
  rbind (ToPrimitive a) (fun pa =>
  rbind (ToPrimitive b) (fun pb =>
    Ok (Num.div (ToNumber pa) (ToNumber pb)))).

(** [arr.reduce(f, init)]: a left fold that stops at the first throw. *)
Fixpoint reduce (f : value -> value -> result value) (arr : list value)
         (acc : value) : result value :=
  match arr with
  | [] => Ok acc
  | x :: rest => rbind (f acc x) (fun acc' => reduce f rest acc')
  end.

(** [arr.map(f)], likewise. *)
Fixpoint array_map (f : value -> result value) (arr : list value)
  : result (list value) :=
  match arr with
  | [] => Ok []
  | x :: rest =>
      rbind (f x) (fun y => rbind (array_map f rest) (fun ys => Ok (y :: ys)))
  end.

End Coercions.

(* ===================================================================== *)
(** * The world: module state, event loop, store file, observations *)
(* ===================================================================== *)

(** [{ total, averagePrice }].  [total] is an array length (or the literal
    [0]); [averagePrice] is the quotient that [mean] returns (or the
    literal [0]). *)
Record Stats : Type := mkStats {
  total : nat;
  averagePrice : number
}.

(** The store file as the next [fs.readFile] followed by [JSON.parse]
    would find it. *)
Inductive file_state : Type :=
| Unreadable (e : exn)     (* [readFile] rejects *)
| Malformed (e : exn)      (* [JSON.parse] throws *)
| Parsed (items : value).  (* the text parses to [items] *)

(** What the route handler does with a request: [res.json(stats)] or
    [next(err)]. *)
Inductive response : Type :=
| ResJson (s : Stats)
| Next (err : exn).

(** What the code does that can be seen from outside, in program order. *)
Inductive obs : Type :=
| ReadFile                               (* [fs.readFile(DATA_PATH, 'utf-8')] *)
| WatchFile                              (* [fs.watch(DATA_PATH, listener)] *)
| Division (divisor : nat)               (* the [/ arr.length] of [mean] *)
| LogStats (msg : string) (s : Stats)    (* [console.log(msg, statsCache)] *)
| LogPath (msg : string)                 (* [console.log(msg, DATA_PATH)] *)
| LogError (msg : string) (e : exn)      (* [console.error(msg, err)] *)
| Respond (r : response).                (* the handler answers a request *)

Record world : Type := mkWorld {
  file : file_state;             (* data/items.json *)
  statsCache : option Stats;     (* [let statsCache = null] *)
  debounceTimer : option nat;    (* [let debounceTimer = null]: a timeout handle *)
  timers : list (nat * nat);     (* pending timeouts: (handle, due time) *)
  next_handle : nat;             (* the handle the next [setTimeout] returns *)
  watchers : nat;                (* listeners installed by [fs.watch] *)
  now : nat;                     (* the clock, in milliseconds *)
  trace : list (nat * obs)       (* observations, each with the clock's reading *)
}.

Definition set_statsCache (c : option Stats) (w : world) : world :=
  mkWorld (file w) c (debounceTimer w) (timers w) (next_handle w)
          (watchers w) (now w) (trace w).

Definition set_debounceTimer (t : option nat) (w : world) : world :=
  mkWorld (file w) (statsCache w) t (timers w) (next_handle w)
          (watchers w) (now w) (trace w).

Definition set_timers (ts : list (nat * nat)) (w : world) : world :=
  mkWorld (file w) (statsCache w) (debounceTimer w) ts (next_handle w)
          (watchers w) (now w) (trace w).

Definition set_next_handle (h : nat) (w : world) : world :=
  mkWorld (file w) (statsCache w) (debounceTimer w) (timers w) h
          (watchers w) (now w) (trace w).

Definition set_watchers (n : nat) (w : world) : world :=
  mkWorld (file w) (statsCache w) (debounceTimer w) (timers w) (next_handle w)
          n (now w) (trace w).

Definition set_now (t : nat) (w : world) : world :=
  mkWorld (file w) (statsCache w) (debounceTimer w) (timers w) (next_handle w)
          (watchers w) t (trace w).

Definition set_file (f : file_state) (w : world) : world :=
  mkWorld f (statsCache w) (debounceTimer w) (timers w) (next_handle w)
          (watchers w) (now w) (trace w).

Definition set_trace (tr : list (nat * obs)) (w : world) : world :=
  mkWorld (file w) (statsCache w) (debounceTimer w) (timers w) (next_handle w)
          (watchers w) (now w) tr.

(** The process right after the modules are loaded. *)
Definition boot (f : file_state) : world :=
  mkWorld f None None [] 0 0 0 [].

(** ** Computations: state plus exceptions

    A computation returns a value or throws, and hands back the world as it
    left it either way: what was assigned before a [throw] stays assigned. *)
Definition M (A : Type) : Type := world -> result A * world.

Definition ret {A} (a : A) : M A := fun w => (Ok a, w).
Definition throw {A} (e : exn) : M A := fun w => (Err e, w).

Definition bind {A B} (m : M A) (k : A -> M B) : M B :=
  fun w =>
    match m w with
    | (Ok a, w') => k a w'
    | (Err e, w') => (Err e, w')
    end.

(** [try { m } catch (err) { h err }]. *)
Definition try_catch {A} (m : M A) (h : exn -> M A) : M A :=
  fun w =>
    match m w with
    | (Ok a, w') => (Ok a, w')
    | (Err e, w') => h e w'
    end.

Definition lift {A} (r : result A) : M A := fun w => (r, w).

Definition emit (o : obs) : M unit :=
  fun w => (Ok tt, set_trace (trace w ++ [(now w, o)]) w).

Declare Scope js_scope.
Delimit Scope js_scope with js.
Notation "x <- m ;; k" := (bind m (fun x => k))
  (at level 61, m at next level, right associativity) : js_scope.
Notation "m ;; k" := (bind m (fun _ => k))
  (at level 61, right associativity) : js_scope.
Local Open Scope js_scope.

(** [await fs.readFile(DATA_PATH, 'utf-8')] then [JSON.parse(raw)]. *)
Definition read_and_parse : M value :=
  emit ReadFile ;;
  fun w =>
    match file w with
    | Unreadable e => (Err e, w)
    | Malformed e => (Err e, w)
    | Parsed items => (Ok items, w)
    end.

(** [clearTimeout(h)]: drops the timeout if it is still pending; [null]
    and the handle of a timeout that already ran are ignored. *)
Definition clearTimeout (h : option nat) : M unit :=
  fun w =>
    match h with
    | None => (Ok tt, w)
    | Some id =>
        (Ok tt, set_timers (filter (fun t => negb (Nat.eqb (fst t) id)) (timers w)) w)
    end.

(** [setTimeout(callback, delay)].  The module has a single call site, so a
    pending timeout does not record which callback it runs. *)
Definition setTimeout (delay : nat) : M nat :=
  fun w =>
    let id := next_handle w in
    (Ok id, set_next_handle (S id) (set_timers (timers w ++ [(id, now w + delay)]) w)).

(* ===================================================================== *)
(** * [backend/src/utils/stats.js] *)
(* ===================================================================== *)

Section StatsModule.

Variable NumberToString : number -> string.
Variable StringToNumber : string -> number.

(**
<<
function mean(arr) {
  return arr.reduce((a, b) => a + b, 0) / arr.length;
}
>>
    The division is entered in the trace with its divisor, so that the
    properties can tell whether, and on what length, it was executed. *)
Definition mean (arr : list value) : M number :=
  price_sum <- lift (reduce (js_add NumberToString StringToNumber) arr
                            (VNumber Num.zero)) ;;
  emit (Division (List.length arr)) ;;
  lift (js_div NumberToString StringToNumber price_sum
               (VNumber (Num.of_nat (List.length arr)))).

(**
<<
async function calculateStats() {
  try {
    const raw = await fs.readFile(DATA_PATH, 'utf-8');
    const items = JSON.parse(raw);
    if (items.length === 0) {
      return { total: 0, averagePrice: 0 };
    }
    const prices = items.map(item => item.price);
    return { total: items.length, averagePrice: mean(prices) };
  } catch (err) {
    console.error('Error calculating stats:', err);
    throw err;
  }
}
>>
    Only an array has a callable [map]: on every other value that got
    past the [length] test, [items.map(...)] is a [TypeError]. *)
Definition calculateStats : M Stats :=
  try_catch
    (items <- read_and_parse ;;
     empty <- lift (length_is_zero items) ;;
     if (empty : bool) then ret (mkStats 0 Num.zero)
     else
       match items with
       | VArray elems =>
           prices <- lift (array_map (get_prop "price") elems) ;;
           avg <- mean prices ;;
           ret (mkStats (List.length elems) avg)
       | _ => throw (TypeError "items.map is not a function")
       end)
    (fun err =>
       emit (LogError "Error calculating stats:" err) ;;
       throw err).

(** The callback given to [setTimeout]:
<<
async () => {
  try {
    statsCache = await calculateStats();
    console.log('Stats cache updated:', statsCache);
  } catch (err) {
    console.error('Error updating stats cache:', err);
  }
}
>>
*)
Definition recompute : M unit :=
  try_catch
    (s <- calculateStats ;;
     (fun w => (Ok tt, set_statsCache (Some s) w)) ;;
     emit (LogStats "Stats cache updated:" s))
    (fun err => emit (LogError "Error updating stats cache:" err)).

(** The listener given to [fs.watch]:
<<
(eventType) => {
  if (eventType === 'change') {
    clearTimeout(debounceTimer);
    debounceTimer = setTimeout(async () => { ... }, 300);
  }
}
>>
*)
Definition debounce_delay : nat := 300.

Definition on_watch_event (eventType : string) : M unit :=
  if String.eqb eventType "change" then
    (fun w => clearTimeout (debounceTimer w) w) ;;
    id <- setTimeout debounce_delay ;;
    (fun w => (Ok tt, set_debounceTimer (Some id) w))
  else ret tt.

(**
<<
async function initStatsCache() {
  try {
    statsCache = await calculateStats();
    console.log('Stats cache initialized:', statsCache);
    const fsWatch = require('fs');
    fsWatch.watch(DATA_PATH, (eventType) => { ... });
    console.log('File watcher initialized for:', DATA_PATH);
  } catch (err) {
    console.error('Error initializing stats cache:', err);
    throw err;
  }
}
>>
    [fs.watch] is reached only after the file was read, and installs one
    more listener. *)
Definition initStatsCache : M unit :=
  try_catch
    (s <- calculateStats ;;
     (fun w => (Ok tt, set_statsCache (Some s) w)) ;;
     emit (LogStats "Stats cache initialized:" s) ;;
     emit WatchFile ;;
     (fun w => (Ok tt, set_watchers (S (watchers w)) w)) ;;
     emit (LogPath "File watcher initialized for:"))
    (fun err =>
       emit (LogError "Error initializing stats cache:" err) ;;
       throw err).

(**
<<
function getStats() { return statsCache; }
>>
*)
Definition getStats : M (option Stats) :=
  fun w => (Ok (statsCache w), w).

(* =================================================================== *)
(** * [backend/src/routes/stats.js] *)
(* =================================================================== *)

(**
<<
router.get('/', (req, res, next) => {
  try {
    const stats = getStats();
    if (!stats) {
      const err = new Error('Stats not initialized');
      err.status = 503;
      throw err;
    }
    res.json(stats);
  } catch (err) {
    next(err);
  }
});
>>
    [!stats] holds for [null] only: an object is never falsy. *)
Definition get_stats_route : M response :=
  try_catch
    (stats <- getStats ;;
     match stats with
     | None => throw (HttpError "Stats not initialized" 503)
     | Some s => ret (ResJson s)
     end)
    (fun err => ret (Next err)).

(* =================================================================== *)
(** * The process: external events and the event loop *)
(* =================================================================== *)

Inductive event : Type :=
| Startup                        (* the server calls [initStatsCache()] *)
| FsEvent (eventType : string)   (* the file system notifies the watchers *)
| StoreWrite (f : file_state)    (* something rewrites data/items.json *)
| Elapse (d : nat)               (* [d] milliseconds pass *)
| HttpGetStats.                  (* a client sends [GET /api/stats] *)

(** The pending timeout that is due first (the oldest one among equals). *)
Fixpoint earliest (ts : list (nat * nat)) : option (nat * nat) :=
  match ts with
  | [] => None
  | t :: rest =>
      match earliest rest with
      | Some t' => if Nat.leb (snd t) (snd t') then Some t else Some t'
      | None => Some t
      end
  end.

(** The event loop runs a timeout that is due: it leaves the pending
    list, the clock reads its due time, its callback is called. *)
Definition run_timeout (t : nat * nat) : M unit :=
  fun w =>
    recompute
      (set_now (snd t)
         (set_timers (filter (fun t' => negb (Nat.eqb (fst t') (fst t))) (timers w)) w)).

(** Runs, in due order, the timeouts due by [deadline].  The callback
    sets no timeout, so one round per timeout pending at the start is
    enough. *)
Fixpoint run_due (rounds : nat) (deadline : nat) : M unit :=
  match rounds with
  | 0 => ret tt
  | S k =>
      fun w =>
        match earliest (timers w) with
        | Some t =>
            if Nat.leb (snd t) deadline
            then (run_timeout t ;; run_due k deadline) w
            else (Ok tt, w)
        | None => (Ok tt, w)
        end
  end.

Definition elapse (d : nat) : M unit :=
  fun w =>
    let deadline := now w + d in
    (run_due (List.length (timers w)) deadline ;;
     (fun w' => (Ok tt, set_now deadline w'))) w.

(** Every installed listener receives the notification. *)
Fixpoint notify_watchers (n : nat) (eventType : string) : M unit :=
  match n with
  | 0 => ret tt
  | S k => on_watch_event eventType ;; notify_watchers k eventType
  end.

Definition step (ev : event) : M unit :=
  match ev with
  | Startup => initStatsCache
  | FsEvent eventType => fun w => notify_watchers (watchers w) eventType w
  | StoreWrite f => fun w => (Ok tt, set_file f w)
  | Elapse d => elapse d
  | HttpGetStats => r <- get_stats_route ;; emit (Respond r)
  end.

(** A run of the process.  An exception that escapes a step is not the
    machine's to handle: the run carries on from the world the step left,
    and a process that exits instead has a prefix of the run. *)
Definition exec (ev : event) (w : world) : world := snd (step ev w).

Definition run (evs : list event) (w : world) : world :=
  fold_left (fun w' ev => exec ev w') evs w.

(** A burst of mutations: each writes the store and is notified as a
    [change]; after the first, each comes [gap] milliseconds after the one
    before. *)
Definition mutation (f : file_state) : list event :=
  [StoreWrite f; FsEvent "change"].

Definition burst (first : file_state) (rest : list (nat * file_state))
  : list event :=
  mutation first ++ flat_map (fun gf => Elapse (fst gf) :: mutation (snd gf)) rest.

End StatsModule.

(* ===================================================================== *)
(** * [backend/src/routes/items.js]: lookup by id and creation *)
(* ===================================================================== *)

(** The routes read and write the same file that the stats module watches.
    The trace records what the stats module and its route do; the reads
    and writes of the items routes show in the [file] of the world only. *)

(** What a handler does with the request: [res.status(s).json(v)]
    ([res.json(v)] is status 200) or [next(err)]. *)
Inductive items_response : Type :=
| Json (status : nat) (body : value)
| NextErr (err : exn).

(** What [JSON.parse] makes of the text that [JSON.stringify] writes for a
    Number: a finite Number reads back as itself, [-0] as [0], and [NaN]
    and the infinities are written as [null]. *)
Definition reparse_number (n : number) : value :=
  match n with
  | S754_finite _ _ _ => VNumber n
  | S754_zero _ => VNumber Num.zero
  | S754_infinity _ | S754_nan => VNull
  end.

(** [JSON.parse(JSON.stringify(v))]: inside an array [undefined] is written
    as [null], a property whose value is [undefined] is left out, and the
    rest is written as it is.  (At top level [undefined] has no text; the
    routes only write arrays.) *)
Fixpoint reparse (v : value) : value :=
  match v with
  | VUndefined => VUndefined
  | VNull => VNull
  | VBool b => VBool b
  | VNumber n => reparse_number n
  | VString s => VString s
  | VArray elems =>
      VArray (map (fun x => match x with
                            | VUndefined => VNull
                            | _ => reparse x
                            end) elems)
  | VObject props =>
      VObject ((fix reparse_props (ps : list (string * value)) :=
                  match ps with
                  | [] => []
                  | (k, x) :: rest =>
                      match x with
                      | VUndefined => reparse_props rest
                      | _ => (k, reparse x) :: reparse_props rest
                      end
                  end) props)
  end.

(**
<<
async function readData() {
  const raw = await fs.readFile(DATA_PATH, 'utf-8');
  return JSON.parse(raw);
}
>>
*)
Definition readData : M value :=
  fun w =>
    match file w with
    | Unreadable e => (Err e, w)
    | Malformed e => (Err e, w)
    | Parsed data => (Ok data, w)
    end.

(** How a call of [fs.writeFile] ends: the text is in the file, or the call
    rejects and leaves the file in some state. *)
Inductive write_outcome : Type :=
| Written
| WriteFailed (e : exn) (remains : file_state).

(**
<<
async function writeData(data) {
  await fs.writeFile(DATA_PATH, JSON.stringify(data, null, 2), 'utf-8');
}
>>
*)
Definition writeData (outcome : write_outcome) (data : value) : M unit :=
  fun w =>
    match outcome with
    | Written => (Ok tt, set_file (Parsed (reparse data)) w)
    | WriteFailed e remains => (Err e, set_file remains w)
    end.

(** [!v]. *)
Definition falsy (v : value) : bool :=
  match v with
  | VUndefined | VNull => true
  | VBool b => negb b
  | VNumber (S754_zero _) | VNumber S754_nan => true
  | VNumber _ => false
  | VString s => Nat.eqb (String.length s) 0
  | VArray _ | VObject _ => false
  end.

(** [v === n] for a Number [n]. *)
Definition strict_eq_number (v : value) (n : number) : bool :=
  match v with
  | VNumber m => Num.strict_eq m n
  | _ => false
  end.

(** [arr.find(pred)]: the first element on which [pred] holds. *)
Fixpoint array_find (pred : value -> result bool) (arr : list value)
  : result (option value) :=
  match arr with
  | [] => Ok None
  | x :: rest =>
      rbind (pred x) (fun b => if (b : bool) then Ok (Some x) else array_find pred rest)
  end.

(**
<<
router.get('/:id', async (req, res, next) => {
  try {
    const data = await readData();
    const item = data.find(i => i.id === parseInt(req.params.id));
    if (!item) {
      const err = new Error('Item not found');
      err.status = 404;
      throw err;
    }
    res.json(item);
  } catch (err) {
    next(err);
  }
});
>>
    [parseInt] is a built-in of the language; [req.params.id] is the string
    that the router cut out of the path.  Only an array has a callable
    [find]. *)
Definition get_item_route (parseInt : string -> number) (id : string)
  : M items_response :=
  try_catch
    (data <- readData ;;
     found <- match data with
              | VArray elems =>
                  lift (array_find
                          (fun i => rbind (get_prop "id" i)
                                      (fun v => Ok (strict_eq_number v (parseInt id))))
                          elems)
              | _ => throw (TypeError "data.find is not a function")
              end ;;
     match found with
     | Some item =>
         if falsy item then throw (HttpError "Item not found" 404)
         else ret (Json 200 item)
     | None => throw (HttpError "Item not found" 404)
     end)
    (fun err => ret (NextErr err)).

(** [o.name = v] on the own properties of an object: an existing binding
    is replaced where it is, a new one is added at the end. *)
Fixpoint set_prop (name : string) (v : value) (props : list (string * value))
  : list (string * value) :=
  match props with
  | [] => [(name, v)]
  | (k, x) :: rest =>
      if String.eqb k name then (k, v) :: rest else (k, x) :: set_prop name v rest
  end.

(** [item.id = v].  On [null] and [undefined] it throws.  On an array it
    sets a named property, which [JSON.stringify] does not write; on a
    primitive the assignment is dropped (the module is not in strict mode);
    either way the value that is written and sent is the one there was. *)
Definition assign_id (item : value) (v : value) : result value :=
  match item with
  | VUndefined | VNull =>
      Err (TypeError "Cannot set properties of null or undefined: id")
  | VObject props => Ok (VObject (set_prop "id" v props))
  | VBool _ | VNumber _ | VString _ | VArray _ => Ok item
  end.

(** [data.push(item)]: only an array has a callable [push]. *)
Definition array_push (data : value) (item : value) : result value :=
  match data with
  | VArray elems => Ok (VArray (elems ++ [item]))
  | _ => Err (TypeError "data.push is not a function")
  end.

(** [Date.now()]: the clock's reading, as a Number. *)
Definition Date_now : M value :=
  fun w => (Ok (VNumber (Num.of_nat (now w))), w).

(** The handler of [POST /api/items] up to the call of [fs.writeFile]:
    it returns the item, with its id, and the array to be written. *)
Definition post_item_begin (body : value) : M (value * value) :=
  data <- readData ;;
  t <- Date_now ;;
  item <- lift (assign_id body t) ;;
  data' <- lift (array_push data item) ;;
  ret (item, data').

(** The handler from the call of [fs.writeFile] on. *)
Definition post_item_end (outcome : write_outcome) (p : value * value)
  : M items_response :=
  writeData outcome (snd p) ;;
  ret (Json 201 (fst p)).

(**
<<
router.post('/', async (req, res, next) => {
  try {
    const item = req.body;
    const data = await readData();
    item.id = Date.now();
    data.push(item);
    await writeData(data);
    res.status(201).json(item);
  } catch (err) {
    next(err);
  }
});
>>
    The handler is given here as it runs when nothing else touches the file
    between its read and its write. *)
Definition post_item_route (body : value) (outcome : write_outcome)
  : M items_response :=
  try_catch
    (p <- post_item_begin body ;; post_item_end outcome p)
    (fun err => ret (NextErr err)).

(* ===================================================================== *)
(** * [backend/src/utils/stats.js], one [await] at a time *)
(* ===================================================================== *)

(** [calculateStats] and its two callers are [async].  A call runs up to
    [await fs.readFile(...)], where the read is issued; what follows the
    [await] runs when the read has settled, in one piece with what follows
    the caller's own [await], and other callbacks may have run in between.
    The machine above runs a call and what follows it in one step.  Here
    the two halves are apart, and a run of the Aggregator that has been
    started and has not settled is a [flight]. *)

Section AsyncStats.

Variable NumberToString : number -> string.
Variable StringToNumber : string -> number.

(** [calculateStats()] up to its [await]. *)
Definition calculateStats_call : M unit := emit ReadFile.

(** [calculateStats()] from its [await] on, the read having settled with
    what the file held, [f]: lines 22 to 37 of the source, inside the same
    [try]. *)
Definition calculateStats_rest (f : file_state) : M Stats :=
  try_catch
    (items <- (fun w =>
                 match f with
                 | Unreadable e => (Err e, w)
                 | Malformed e => (Err e, w)
                 | Parsed items => (Ok items, w)
                 end) ;;
     empty <- lift (length_is_zero items) ;;
     if (empty : bool) then ret (mkStats 0 Num.zero)
     else
       match items with
       | VArray elems =>
           prices <- lift (array_map (get_prop "price") elems) ;;
           avg <- mean NumberToString StringToNumber prices ;;
           ret (mkStats (List.length elems) avg)
       | _ => throw (TypeError "items.map is not a function")
       end)
    (fun err =>
       emit (LogError "Error calculating stats:" err) ;;
       throw err).

(** The [setTimeout] callback from its [await] on. *)
Definition recompute_rest (f : file_state) : M unit :=
  try_catch
    (s <- calculateStats_rest f ;;
     (fun w => (Ok tt, set_statsCache (Some s) w)) ;;
     emit (LogStats "Stats cache updated:" s))
    (fun err => emit (LogError "Error updating stats cache:" err)).

(** [initStatsCache()] from its [await] on. *)
Definition initStatsCache_rest (f : file_state) : M unit :=
  try_catch
    (s <- calculateStats_rest f ;;
     (fun w => (Ok tt, set_statsCache (Some s) w)) ;;
     emit (LogStats "Stats cache initialized:" s) ;;
     emit WatchFile ;;
     (fun w => (Ok tt, set_watchers (S (watchers w)) w)) ;;
     emit (LogPath "File watcher initialized for:"))
    (fun err =>
       emit (LogError "Error initializing stats cache:" err) ;;
       throw err).

(** Who awaits the run, and what its read has found, once it has read. *)
Inductive caller : Type :=
| ByInit
| ByTimeout.

Record flight : Type := mkFlight {
  awaited_by : caller;
  content : option file_state
}.

Record process : Type := mkProcess {
  main : world;
  flights : list flight
}.

Definition async_boot (f : file_state) : process := mkProcess (boot f) [].

Inductive async_event : Type :=
| AStartup                        (* the server calls [initStatsCache()] *)
| AFsEvent (eventType : string)   (* the file system notifies the watchers *)
| AStoreWrite (f : file_state)    (* something rewrites data/items.json *)
| AElapse (d : nat)               (* [d] milliseconds pass *)
| AHttpGetStats                   (* a client sends [GET /api/stats] *)
| AReadLands (i : nat)            (* the read of flight [i] takes the file as it is *)
| ASettle (i : nat).              (* the read of flight [i] settles; the rest runs *)

(** The event loop runs a timeout that is due: it leaves the pending
    list, the clock reads its due time, and its callback runs up to the
    [await]. *)
Definition start_timeout (t : nat * nat) (p : process) : process :=
  mkProcess
    (snd (calculateStats_call
            (set_now (snd t)
               (set_timers (filter (fun t' => negb (Nat.eqb (fst t') (fst t)))
                                   (timers (main p)))
                           (main p)))))
    (flights p ++ [mkFlight ByTimeout None]).

Fixpoint start_due (rounds : nat) (deadline : nat) (p : process) : process :=
  match rounds with
  | 0 => p
  | S k =>
      match earliest (timers (main p)) with
      | Some t =>
          if Nat.leb (snd t) deadline
          then start_due k deadline (start_timeout t p)
          else p
      | None => p
      end
  end.

Definition async_elapse (d : nat) (p : process) : process :=
  let deadline := now (main p) + d in
  let p' := start_due (List.length (timers (main p))) deadline p in
  mkProcess (set_now deadline (main p')) (flights p').

(** The read of flight [i] takes the content of the file, unless it has
    one already. *)
Fixpoint land (i : nat) (f : file_state) (fls : list flight) : list flight :=
  match fls, i with
  | [], _ => []
  | fl :: rest, 0 =>
      match content fl with
      | None => mkFlight (awaited_by fl) (Some f) :: rest
      | Some _ => fl :: rest
      end
  | fl :: rest, S k => fl :: land k f rest
  end.

Definition remove_nth {A} (i : nat) (l : list A) : list A :=
  firstn i l ++ skipn (S i) l.

(** Flight [i] settles: what follows the [await]s runs with what the read
    found, which is the file as it is now if the read had not taken it
    before.  An exception that escapes [initStatsCache] goes to its
    caller. *)
Definition settle (i : nat) (p : process) : process :=
  match nth_error (flights p) i with
  | Some fl =>
      let f := match content fl with Some f => f | None => file (main p) end in
      mkProcess
        (snd (match awaited_by fl with
              | ByInit => initStatsCache_rest f
              | ByTimeout => recompute_rest f
              end (main p)))
        (remove_nth i (flights p))
  | None => p
  end.

(** The events that start or settle no run are those of the machine
    above. *)
Definition async_step (ev : async_event) (p : process) : process :=
  match ev with
  | AStartup =>
      mkProcess (snd (calculateStats_call (main p)))
                (flights p ++ [mkFlight ByInit None])
  | AFsEvent eventType =>
      mkProcess (exec NumberToString StringToNumber (FsEvent eventType) (main p))
                (flights p)
  | AStoreWrite f =>
      mkProcess (exec NumberToString StringToNumber (StoreWrite f) (main p))
                (flights p)
  | AElapse d => async_elapse d p
  | AHttpGetStats =>
      mkProcess (exec NumberToString StringToNumber HttpGetStats (main p))
                (flights p)
  | AReadLands i => mkProcess (main p) (land i (file (main p)) (flights p))
  | ASettle i => settle i p
  end.

Definition async_run (evs : list async_event) (p : process) : process :=
  fold_left (fun p' ev => async_step ev p') evs p.

(** The events of a burst and of a mutation, for this machine. *)
Definition async_mutation (f : file_state) : list async_event :=
  [AStoreWrite f; AFsEvent "change"].

Definition async_burst (first : file_state) (rest : list (nat * file_state))
  : list async_event :=
  async_mutation first
  ++ flat_map (fun gf => AElapse (fst gf) :: async_mutation (snd gf)) rest.

End AsyncStats.

(* ===================================================================== *)
(** * Vocabulary of the specification *)
(* ===================================================================== *)

(** The price of a Record: the Number under [price]. *)
Definition price_of (item : value) : option number :=
  match item with
  | VObject props =>
      match lookup "price" props with
      | Some (VNumber p) => Some p
      | _ => None
      end
  | _ => None
  end.

(** The prices of a Record Set, when every record has one. *)
Fixpoint numeric_prices (items : list value) : option (list number) :=
  match items with
  | [] => Some []
  | item :: rest =>
      match price_of item, numeric_prices rest with
      | Some p, Some ps => Some (p :: ps)
      | _, _ => None
      end
  end.

(** [sum(price)], in floating point, in the order of the sequence. *)
Definition sum_prices (prices : list number) : number :=
  fold_left Num.add prices Num.zero.

(** [mean(price) = sum(price) / N], in floating point. *)
Definition arithmetic_mean (prices : list number) : number :=
  Num.div (sum_prices prices) (Num.of_nat (List.length prices)).

(** The times at which the Aggregator was invoked: each invocation starts
    by reading the store. *)
Fixpoint aggregator_runs (tr : list (nat * obs)) : list nat :=
  match tr with
  | [] => []
  | (t, ReadFile) :: rest => t :: aggregator_runs rest
  | _ :: rest => aggregator_runs rest
  end.

(** The contents the store has had: at boot, then after each write. *)
Fixpoint store_history (f : file_state) (evs : list event) : list file_state :=
  match evs with
  | [] => [f]
  | StoreWrite f' :: rest => f :: store_history f' rest
  | _ :: rest => store_history f rest
  end.


(** The Stats invariant as the code keeps it: the same, but [averagePrice]
    is [sum(price) / total] when the records all have a Number as price,
    and is not constrained when some record has none. *)
Definition Stats_invariant (items : value) (s : Stats) : Prop :=
  (total s = 0 -> averagePrice s = Num.zero) /\
  (total s <> 0 ->
   exists records,
     items = VArray records /\
     total s = List.length records /\
     forall prices, numeric_prices records = Some prices ->
                    averagePrice s = arithmetic_mean prices).

(** A record without a [price] field, and a record whose [price] is a
    Number. *)
Definition lacks_price (item : value) : bool :=
  match item with
  | VObject props =>
      match lookup "price" props with None => true | Some _ => false end
  | _ => false
  end.

Definition has_number_price (item : value) : bool :=
  match price_of item with Some _ => true | None => false end.

(** The Invalidation Trigger is Idle (no timeout pending) or in
    PendingRecompute: one timeout pending, not yet due, and
    [debounceTimer] is its handle. *)
Definition trigger_state (w : world) : Prop :=
  timers w = [] \/
  exists id due,
    timers w = [(id, due)] /\ debounceTimer w = Some id /\ now w < due.

(** [w] is [w0] after a [change] notification restarted the debounce: one
    timeout pending, due [debounce_delay] after the notification, and
    nothing else moved. *)
Definition restarted_from (w0 w : world) : Prop :=
  (exists h, timers w = [(h, now w0 + debounce_delay)] /\ debounceTimer w = Some h) /\
  file w = file w0 /\ statsCache w = statsCache w0 /\
  watchers w = watchers w0 /\ now w = now w0 /\ trace w = trace w0.

(** Mutations that are each followed by a quiet period. *)
Definition spaced (ms : list (file_state * nat)) : list event :=
  flat_map (fun fd => mutation (fst fd) ++ [Elapse (snd fd)]) ms.

(** The content of the store after the events, from the content before. *)
Definition current_store (f : file_state) (evs : list event) : file_state :=
  fold_left (fun f' ev => match ev with StoreWrite f'' => f'' | _ => f' end) evs f.

(** How often the server was started, and how many [change] notifications
    the file system sent. *)
Definition count_startups (evs : list event) : nat :=
  List.length (filter (fun ev => match ev with Startup => true | _ => false end) evs).

Definition count_changes (evs : list event) : nat :=
  List.length
    (filter (fun ev => match ev with
                       | FsEvent eventType => String.eqb eventType "change"
                       | _ => false
                       end) evs).

(** The prices of a record set whose prices are all strings. *)
Definition string_price_of (item : value) : option string :=
  match item with
  | VObject props =>
      match lookup "price" props with
      | Some (VString p) => Some p
      | _ => None
      end
  | _ => None
  end.

Fixpoint string_prices (items : list value) : option (list string) :=
  match items with
  | [] => Some []
  | item :: rest =>
      match string_price_of item, string_prices rest with
      | Some p, Some ps => Some (p :: ps)
      | _, _ => None
      end
  end.

(** ** The items routes *)

(** The parts of [reparse], by name. *)
Definition reparse_elem (x : value) : value :=
  match x with
  | VUndefined => VNull
  | _ => reparse x
  end.

Fixpoint reparse_fields (ps : list (string * value)) : list (string * value) :=
  match ps with
  | [] => []
  | (k, x) :: rest =>
      match x with
      | VUndefined => reparse_fields rest
      | _ => (k, reparse x) :: reparse_fields rest
      end
  end.

(** A record of the store that is not [null]: its properties can be read. *)
Definition present (item : value) : bool :=
  match item with
  | VUndefined | VNull => false
  | _ => true
  end.

(** [item.id === n], for a record that is [present]. *)
Definition id_is (n : number) (item : value) : bool :=
  match get_prop "id" item with
  | Ok v => strict_eq_number v n
  | Err _ => false
  end.

(* ===================================================================== *)
(** * Sample data *)
(* ===================================================================== *)

(** A runtime for closed examples.  The examples never convert between
    Numbers and Strings, so the two conversions are left constant. *)
Definition sample_NumberToString (n : number) : string := "NaN".
Definition sample_StringToNumber (s : string) : number := Num.NaN.

Definition record (price : Z) : value :=
  VObject [("id", VNumber (Num.of_Z 1)); ("price", VNumber (Num.of_Z price))].

(** [[{price:10},{price:20},{price:30}]]. *)
Definition three_records : list value := [record 10; record 20; record 30].

(** A record that was posted without a price. *)
Definition priceless : value := VObject [("name", VString "Desk")].

(** Store contents. *)
Definition good_store : file_state := Parsed (VArray three_records).
Definition empty_store : file_state := Parsed (VArray []).
Definition broken_store : file_state := Malformed SyntaxError.
Definition missing_store : file_state := Unreadable (SystemError "ENOENT").

(** The server after a start-up on the good store. *)
Definition serving : world :=
  run sample_NumberToString sample_StringToNumber [Startup] (boot good_store).

(** The server with a recompute pending while the store is broken. *)
Definition pending_on_broken_store : world :=
  run sample_NumberToString sample_StringToNumber
      [StoreWrite broken_store; FsEvent "change"] serving.

(** Four more writes, 50 ms apart: with the first, five notifications. *)
Definition four_more : list (nat * file_state) :=
  [(50, good_store); (50, empty_store); (50, good_store); (50, empty_store)].

(** [parseInt] for closed examples: an optional sign and decimal digits, up
    to the first character that is not a digit; [NaN] when there is no
    digit.  (The built-in also skips white space and reads hexadecimal.) *)
Definition digit_of (c : ascii) : option Z :=
  let n := Z.of_nat (nat_of_ascii c) in
  if ((48 <=? n) && (n <=? 57))%Z then Some (n - 48)%Z else None.

Fixpoint digits_value (s : string) (acc : option Z) : option Z :=
  match s with
  | EmptyString => acc
  | String c rest =>
      match digit_of c with
      | Some d =>
          digits_value rest
            (Some (match acc with Some a => 10 * a + d | None => d end)%Z)
      | None => acc
      end
  end.

Definition sample_parseInt (s : string) : number :=
  match s with
  | String "-"%char rest =>
      match digits_value rest None with
      | Some z => Num.of_Z (- z)
      | None => Num.NaN
      end
  | String "+"%char rest =>
      match digits_value rest None with
      | Some z => Num.of_Z z
      | None => Num.NaN
      end
  | _ =>
      match digits_value s None with
      | Some z => Num.of_Z z
      | None => Num.NaN
      end
  end.

(** Records with an id. *)
Definition item_with_id (id : Z) (name : string) (price : Z) : value :=
  VObject [("id", VNumber (Num.of_Z id)); ("name", VString name);
           ("price", VNumber (Num.of_Z price))].

Definition catalog : list value :=
  [item_with_id 1 "Laptop Pro" 2499; item_with_id 2 "Headphones" 399;
   item_with_id 3 "Chair" 799].

(** The server on the catalog, 1700 ms after its start. *)
Definition serving_catalog : world :=
  run sample_NumberToString sample_StringToNumber
      [Startup; Elapse 1700] (boot (Parsed (VArray catalog))).

(** Request bodies. *)
Definition new_lamp : value :=
  VObject [("name", VString "Lamp"); ("price", VNumber (Num.of_Z 79))].

Definition new_desk : value :=
  VObject [("id", VNumber (Num.of_Z 1)); ("name", VString "Desk")].

(* ===================================================================== *)
(** * Properties *)
(* ===================================================================== *)

Ltac unfold_M :=
  cbv beta iota delta
      [try_catch bind read_and_parse emit lift ret throw getStats
       clearTimeout setTimeout].

Ltac proj_world :=
  cbn [file statsCache debounceTimer timers next_handle watchers now trace
       set_statsCache set_debounceTimer set_timers set_next_handle
       set_watchers set_now set_file set_trace fst snd].

Ltac proj_world_all :=
  cbn [file statsCache debounceTimer timers next_handle watchers now trace
       set_statsCache set_debounceTimer set_timers set_next_handle
       set_watchers set_now set_file set_trace fst snd] in *.

(** Case analysis on a scrutinee of the goal that has no [match] inside. *)
Ltac break_match :=
  match goal with
  | |- context [match ?x with _ => _ end] =>
      lazymatch x with
      | context [match _ with _ => _ end] => fail
      | _ => destruct x eqn:?
      end
  end.

(** Runs [calculateStats] symbolically, one goal per path through it. *)
Ltac run_calculateStats w :=
  unfold calculateStats, mean; unfold_M; proj_world;
  destruct (file w) as [e|e|items]; proj_world;
  repeat (break_match; proj_world).

(** Case analysis on the membership of an entry in an extended trace. *)
Ltac in_trace Hin :=
  repeat (apply in_app_or in Hin; destruct Hin as [Hin|Hin]);
  try assumption;
  cbn [In] in Hin;
  repeat match goal with H : _ \/ _ |- _ => destruct H as [H|H] end;
  try contradiction; try discriminate.

Section Properties.

Variable NumberToString : number -> string.
Variable StringToNumber : string -> number.

(** ** [NaN] absorbs *)

Lemma add_NaN_r a : Num.add a Num.NaN = Num.NaN.
Proof. now destruct a. Qed.

Lemma add_NaN_l a : Num.add Num.NaN a = Num.NaN.
Proof. reflexivity. Qed.

Lemma div_NaN_l a : Num.div Num.NaN a = Num.NaN.
Proof. reflexivity. Qed.

#[local] Abbreviation js_add' := (js_add NumberToString StringToNumber).
#[local] Abbreviation js_div' := (js_div NumberToString StringToNumber).
#[local] Abbreviation mean' := (mean NumberToString StringToNumber).
#[local] Abbreviation calculateStats' := (calculateStats NumberToString StringToNumber).
#[local] Abbreviation recompute' := (recompute NumberToString StringToNumber).
#[local] Abbreviation initStatsCache' := (initStatsCache NumberToString StringToNumber).
#[local] Abbreviation elapse' := (elapse NumberToString StringToNumber).
#[local] Abbreviation run_due' := (run_due NumberToString StringToNumber).
#[local] Abbreviation step' := (step NumberToString StringToNumber).
#[local] Abbreviation exec' := (exec NumberToString StringToNumber).
#[local] Abbreviation run' := (run NumberToString StringToNumber).

(** ** Prices that are Numbers stay Numbers *)

Lemma numeric_prices_length items prices :
  numeric_prices items = Some prices -> List.length prices = List.length items.
Proof.
  revert prices; induction items as [|item rest IH]; intros prices H; simpl in H.
  - now inversion H.
  - destruct (price_of item); [|discriminate].
    destruct (numeric_prices rest) as [ps|]; [|discriminate].
    inversion H; subst; simpl; f_equal; auto.
Qed.

Lemma price_of_get_prop item p :
  price_of item = Some p -> get_prop "price" item = Ok (VNumber p).
Proof.
  destruct item; simpl; try discriminate.
  destruct (lookup "price" props) as [[]|]; try discriminate.
  now intros [= ->].
Qed.

Lemma array_map_numeric_prices items prices :
  numeric_prices items = Some prices ->
  array_map (get_prop "price") items = Ok (map VNumber prices).
Proof.
  revert prices; induction items as [|item rest IH]; intros prices H; simpl in H.
  - now inversion H.
  - destruct (price_of item) eqn:Hp; [|discriminate].
    destruct (numeric_prices rest) as [ps|]; [|discriminate].
    inversion H; subst.
    cbn [array_map map]. rewrite (price_of_get_prop _ _ Hp). cbn [rbind].
    now rewrite (IH ps eq_refl).
Qed.

Lemma js_add_numbers a b :
  js_add' (VNumber a) (VNumber b) = Ok (VNumber (Num.add a b)).
Proof. reflexivity. Qed.

Lemma js_div_numbers a b :
  js_div' (VNumber a) (VNumber b) = Ok (Num.div a b).
Proof. reflexivity. Qed.

Lemma reduce_numbers prices acc :
  reduce js_add' (map VNumber prices) (VNumber acc)
  = Ok (VNumber (fold_left Num.add prices acc)).
Proof.
  revert acc; induction prices as [|p ps IH]; intro acc; cbn [map reduce fold_left].
  - reflexivity.
  - rewrite js_add_numbers. cbn [rbind]. apply IH.
Qed.

Lemma mean_numbers prices w :
  mean' (map VNumber prices) w
  = (Ok (arithmetic_mean prices),
     set_trace (trace w ++ [(now w, Division (List.length prices))]) w).
Proof.
  unfold mean. unfold_M. rewrite reduce_numbers, length_map, js_div_numbers.
  reflexivity.
Qed.

(** ** What a run of [calculateStats] leaves behind *)

(** The run of [calculateStats] on an array that is not empty. *)
Lemma calculateStats_array w x xs :
  file w = Parsed (VArray (x :: xs)) ->
  calculateStats' w =
  try_catch
    (prices <- lift (array_map (get_prop "price") (x :: xs)) ;;
     avg <- mean' prices ;;
     ret (mkStats (List.length (x :: xs)) avg))
    (fun err => emit (LogError "Error calculating stats:" err) ;; throw err)
    (set_trace (trace w ++ [(now w, ReadFile)]) w).
Proof.
  intro Hf. unfold calculateStats. unfold_M. proj_world. rewrite Hf.
  reflexivity.
Qed.

(** The run of [calculateStats] on records that all have a Number as
    [price]. *)
Lemma calculateStats_numeric w x xs prices :
  file w = Parsed (VArray (x :: xs)) ->
  numeric_prices (x :: xs) = Some prices ->
  calculateStats' w =
  (Ok (mkStats (List.length (x :: xs)) (arithmetic_mean prices)),
   set_trace (trace w ++ [(now w, ReadFile);
                          (now w, Division (List.length (x :: xs)))]) w).
Proof.
  intros Hf Hp.
  rewrite (calculateStats_array _ _ _ Hf).
  unfold try_catch, bind at 1, lift.
  rewrite (array_map_numeric_prices _ _ Hp).
  unfold bind. rewrite mean_numbers. unfold ret. proj_world.
  rewrite (numeric_prices_length _ _ Hp), <- app_assoc. reflexivity.
Qed.

(** C1.  For a record set of N >= 1 records that all have a Number as
    [price], [calculateStats] returns a Stats value whose [total] is N and
    whose [averagePrice] is the arithmetic mean of the prices,
    [sum(price) / N] in floating point. *)
Theorem calculateStats_total_and_mean :
  forall (w : world) (items : list value) (prices : list number),
    file w = Parsed (VArray items) ->
    1 <= List.length items ->
    numeric_prices items = Some prices ->
    exists s,
      fst (calculateStats' w) = Ok s /\
      total s = List.length items /\
      averagePrice s = arithmetic_mean prices.
Proof.
  intros w items prices Hf Hn Hp.
  destruct items as [|x xs]; [simpl in Hn; lia|].
  rewrite (calculateStats_numeric _ _ _ _ Hf Hp).
  eexists; repeat split; reflexivity.
Qed.

Lemma aggregator_runs_app tr1 tr2 :
  aggregator_runs (tr1 ++ tr2) = aggregator_runs tr1 ++ aggregator_runs tr2.
Proof.
  induction tr1 as [|[t o] tr1 IH]; simpl; [reflexivity|].
  destruct o; simpl; now rewrite ?IH.
Qed.

Lemma array_map_length f l l' :
  array_map f l = Ok l' -> List.length l' = List.length l.
Proof.
  revert l'; induction l as [|x xs IH]; intros l' H; cbn [array_map] in H.
  - now inversion H.
  - destruct (f x); [|discriminate]. cbn [rbind] in H.
    destruct (array_map f xs); [|discriminate]. cbn [rbind] in H.
    inversion H; subst; simpl; f_equal; auto.
Qed.

(** A run of [calculateStats] starts by reading the store, reads it once,
    never divides by a zero length, and changes nothing in the world but
    the trace. *)
Lemma calculateStats_effect w :
  exists r tr,
    calculateStats' w = (r, set_trace (trace w ++ (now w, ReadFile) :: tr) w) /\
    aggregator_runs tr = [] /\
    (forall t, ~ In (t, Division 0) tr) /\
    (forall e, r = Err e ->
               exists tr0, tr = tr0 ++ [(now w, LogError "Error calculating stats:" e)]).
Proof.
  run_calculateStats w.
  all: do 2 eexists; rewrite <- ?app_assoc; cbn [app]; split; [reflexivity|].
  all: cbn [aggregator_runs].
  all: split; [reflexivity|split].
  all: try (intros e0 [= <-]); try discriminate.
  all: try (now exists []).
  all: try (eexists [_]; reflexivity).
  all: intros t H; cbn [In] in H.
  all: repeat match goal with H : _ \/ _ |- _ => destruct H as [H|H] end.
  all: try contradiction; try discriminate.
  all: match goal with
       | Hz : length_is_zero (VArray ?l) = Ok false,
         Hm : array_map _ ?l = Ok ?l' |- _ =>
           apply array_map_length in Hm; cbn [length_is_zero] in Hz;
           injection Hz as Hz; apply Nat.eqb_neq in Hz;
           injection H as H; congruence
       end.
Qed.

(** The result of [calculateStats] is a function of the store alone. *)
Lemma calculateStats_result_of_store w :
  fst (calculateStats' w) = fst (calculateStats' (boot (file w))).
Proof.
  unfold calculateStats, mean; unfold_M; proj_world. cbn [boot file].
  destruct (file w) as [e|e|items]; proj_world; try reflexivity.
  repeat (break_match; proj_world); reflexivity.
Qed.

(** C2.  On the empty record set [calculateStats] returns exactly
    [{total: 0, averagePrice: 0}] and its only observable action is the
    read of the store; and on no store at all does a run of
    [calculateStats] execute the division of [mean] with a zero length. *)
Theorem calculateStats_empty_record_set :
  forall w : world,
    file w = Parsed (VArray []) ->
    calculateStats' w =
    (Ok (mkStats 0 Num.zero), set_trace (trace w ++ [(now w, ReadFile)]) w) /\
    forall (w' : world) (t : nat),
      In (t, Division 0) (trace (snd (calculateStats' w'))) ->
      In (t, Division 0) (trace w').
Proof.
  intros w Hf. split.
  - unfold calculateStats. unfold_M. proj_world. rewrite Hf. reflexivity.
  - intros w' t Hin.
    destruct (calculateStats_effect w') as (r & tr & Heq & _ & Hdiv & _).
    rewrite Heq in Hin. proj_world. apply in_app_or in Hin.
    destruct Hin as [Hin|[Hin|Hin]]; [assumption|discriminate|].
    now apply Hdiv in Hin.
Qed.

(** Without the guard the division would run on a zero length: [mean([])]
    is [0 / 0]. *)
Lemma mean_of_nothing w :
  mean' [] w = (Ok Num.NaN, set_trace (trace w ++ [(now w, Division 0)]) w).
Proof. reflexivity. Qed.

(** ** Records without a usable price *)

Lemma array_map_null items :
  In VNull items ->
  exists msg, array_map (get_prop "price") items = Err (TypeError msg).
Proof.
  induction items as [|x xs IH]; intros Hin; [contradiction|].
  cbn [array_map].
  destruct (get_prop "price" x) as [y|e] eqn:Hx.
  - destruct Hin as [->|Hin]; [discriminate|].
    destruct (IH Hin) as [msg ->]. cbn [rbind]. now exists msg.
  - cbn [rbind]. destruct x; try discriminate; cbn in Hx; inversion Hx; eauto.
Qed.

Lemma reduce_absent_prices items :
  Forall (fun item => lacks_price item = true \/ has_number_price item = true) items ->
  forall acc,
  exists prices r,
    array_map (get_prop "price") items = Ok prices /\
    reduce js_add' prices (VNumber acc) = Ok (VNumber r) /\
    (acc = Num.NaN \/ Exists (fun item => lacks_price item = true) items ->
     r = Num.NaN).
Proof.
  induction 1 as [|item rest Hitem _ IH]; intro acc.
  - exists [], acc. repeat split. intros [H|H]; [assumption|inversion H].
  - assert (Hp : exists pv acc',
               get_prop "price" item = Ok pv /\
               js_add' (VNumber acc) pv = Ok (VNumber acc') /\
               (acc = Num.NaN \/ lacks_price item = true -> acc' = Num.NaN)).
    { destruct Hitem as [Hl|Hn].
      - destruct item; try discriminate. cbn in Hl |- *.
        destruct (lookup "price" props); [discriminate|].
        exists VUndefined, Num.NaN. repeat split.
        cbn. now rewrite add_NaN_r.
      - unfold has_number_price in Hn.
        destruct (price_of item) as [p|] eqn:Hp; [|discriminate].
        exists (VNumber p), (Num.add acc p).
        rewrite (price_of_get_prop _ _ Hp). repeat split.
        intros [->|Hl]; [reflexivity|].
        destruct item; try discriminate. cbn in Hl, Hp.
        destruct (lookup "price" props); discriminate. }
    destruct Hp as (pv & acc' & Hget & Hadd & Hnan).
    destruct (IH acc') as (prices & r & Hmap & Hred & Hr).
    exists (pv :: prices), r. cbn [array_map reduce].
    rewrite Hget, Hmap, Hadd. cbn [rbind]. repeat split; [assumption|].
    intros [Ha|He]; apply Hr.
    + left. apply Hnan. now left.
    + inversion He; subst; [left; apply Hnan; now right | now right].
Qed.

(** C3, as the code has it.  [calculateStats] fails, with the underlying
    error and after logging it, when the store cannot be read, when its
    text does not parse, and when a record is [null]; a record that is an
    object without a [price] field does not make it fail: when every
    record has a Number as price or no price at all, and at least one has
    none, it returns [total = N] and [averagePrice = NaN]. *)
Theorem calculateStats_failures :
  forall w : world,
    (forall e, file w = Unreadable e \/ file w = Malformed e ->
               fst (calculateStats' w) = Err e /\
               In (now w, LogError "Error calculating stats:" e)
                  (trace (snd (calculateStats' w)))) /\
    (forall items, file w = Parsed (VArray items) -> In VNull items ->
                   exists msg,
                     fst (calculateStats' w) = Err (TypeError msg) /\
                     In (now w, LogError "Error calculating stats:" (TypeError msg))
                        (trace (snd (calculateStats' w)))) /\
    (forall items,
        file w = Parsed (VArray items) ->
        Forall (fun item => lacks_price item = true \/ has_number_price item = true)
               items ->
        Exists (fun item => lacks_price item = true) items ->
        fst (calculateStats' w) = Ok (mkStats (List.length items) Num.NaN)).
Proof.
  intro w. split; [|split].
  - intros e [Hf|Hf]; unfold calculateStats; unfold_M; proj_world; rewrite Hf;
      proj_world; (split; [reflexivity|]); apply in_or_app; right; now left.
  - intros items Hf Hin.
    destruct items as [|x xs]; [contradiction|].
    destruct (array_map_null _ Hin) as [msg Hmap].
    exists msg. rewrite (calculateStats_array _ _ _ Hf).
    unfold_M. rewrite Hmap. proj_world.
    split; [reflexivity|]. apply in_or_app; right; now left.
  - intros items Hf Hall Hex.
    destruct items as [|x xs]; [inversion Hex|].
    destruct (reduce_absent_prices _ Hall Num.zero) as (prices & r & Hmap & Hred & Hr).
    rewrite (Hr (or_intror Hex)) in Hred.
    rewrite (calculateStats_array _ _ _ Hf).
    unfold mean. unfold_M. rewrite Hmap, Hred. reflexivity.
Qed.


(** ** The callbacks *)

Lemma recompute_effect w :
  exists c tr,
    recompute' w =
    (Ok tt, set_statsCache c (set_trace (trace w ++ (now w, ReadFile) :: tr) w)) /\
    aggregator_runs tr = [] /\
    match fst (calculateStats' w) with
    | Ok s => c = Some s
    | Err _ => c = statsCache w
    end.
Proof.
  destruct (calculateStats_effect w) as (r & tr & Heq & Hruns & _ & _).
  unfold recompute. unfold_M. rewrite Heq. destruct r as [s|e]; proj_world.
  - exists (Some s), (tr ++ [(now w, LogStats "Stats cache updated:" s)]).
    rewrite <- app_assoc, aggregator_runs_app, Hruns. repeat split.
  - exists (statsCache w), (tr ++ [(now w, LogError "Error updating stats cache:" e)]).
    rewrite <- app_assoc, aggregator_runs_app, Hruns. repeat split.
Qed.

Lemma initStatsCache_effect w :
  exists tr,
    aggregator_runs tr = [] /\
    initStatsCache' w =
    match fst (calculateStats' w) with
    | Ok s =>
        (Ok tt,
         set_watchers (S (watchers w))
           (set_statsCache (Some s)
              (set_trace (trace w ++ (now w, ReadFile) :: tr) w)))
    | Err e => (Err e, set_trace (trace w ++ (now w, ReadFile) :: tr) w)
    end.
Proof.
  destruct (calculateStats_effect w) as (r & tr & Heq & Hruns & _ & _).
  unfold initStatsCache. unfold_M. rewrite Heq. destruct r as [s|e]; proj_world.
  - exists (tr ++ [(now w, LogStats "Stats cache initialized:" s);
                   (now w, WatchFile);
                   (now w, LogPath "File watcher initialized for:")]).
    rewrite aggregator_runs_app, Hruns. split; [reflexivity|].
    rewrite <- !app_assoc. reflexivity.
  - exists (tr ++ [(now w, LogError "Error initializing stats cache:" e)]).
    rewrite aggregator_runs_app, Hruns. split; [reflexivity|].
    rewrite <- !app_assoc. reflexivity.
Qed.

Lemma on_watch_event_ignored eventType w :
  String.eqb eventType "change" = false ->
  on_watch_event eventType w = (Ok tt, w).
Proof. intro H. unfold on_watch_event. now rewrite H. Qed.

Lemma notify_watchers_ignored eventType n w :
  String.eqb eventType "change" = false ->
  notify_watchers n eventType w = (Ok tt, w).
Proof.
  intro H. induction n as [|n IH]; cbn [notify_watchers]; [reflexivity|].
  unfold bind. now rewrite on_watch_event_ignored.
Qed.

Lemma restarted_trigger_state w0 w :
  restarted_from w0 w -> trigger_state w.
Proof.
  intros ((h & Ht & Hd) & _ & _ & _ & Hnow & _). right.
  exists h, (now w0 + debounce_delay). repeat split; try assumption.
  rewrite Hnow. unfold debounce_delay. lia.
Qed.

Lemma on_watch_event_change w :
  trigger_state w ->
  fst (on_watch_event "change" w) = Ok tt /\
  restarted_from w (snd (on_watch_event "change" w)).
Proof.
  intro Hinv. unfold on_watch_event. cbn [String.eqb Ascii.eqb Bool.eqb].
  unfold_M.
  destruct Hinv as [Ht|(id & due & Ht & Hd & _)].
  - destruct (debounceTimer w); proj_world; rewrite Ht; cbn [filter app];
      (split; [reflexivity|]); unfold restarted_from; proj_world;
      repeat split; eauto.
  - rewrite Hd. proj_world. rewrite Ht. cbn [filter fst]. rewrite Nat.eqb_refl.
    cbn [negb app]. split; [reflexivity|].
    unfold restarted_from; proj_world; repeat split; eauto.
Qed.

Lemma restarted_from_trans w0 w1 w2 :
  restarted_from w0 w1 -> restarted_from w1 w2 -> restarted_from w0 w2.
Proof.
  intros (_ & Hf1 & Hc1 & Hw1 & Hn1 & Ht1) ((h & Ht & Hd) & Hf2 & Hc2 & Hw2 & Hn2 & Ht2).
  unfold restarted_from. rewrite <- Hn1. repeat split; eauto; congruence.
Qed.

Lemma notify_watchers_change n w :
  trigger_state w -> 1 <= n ->
  fst (notify_watchers n "change" w) = Ok tt /\
  restarted_from w (snd (notify_watchers n "change" w)).
Proof.
  revert w; induction n as [|n IH]; intros w Hinv Hn; [lia|].
  cbn [notify_watchers]. unfold bind.
  destruct (on_watch_event_change w Hinv) as [Hok Hre].
  destruct (on_watch_event "change" w) as [r w1]; cbn [fst snd] in *. subst r.
  destruct n as [|n].
  - cbn [notify_watchers]. unfold ret. now split.
  - destruct (IH w1 (restarted_trigger_state _ _ Hre) ltac:(lia)) as [Hok2 Hre2].
    split; [assumption|]. eapply restarted_from_trans; eassumption.
Qed.

(** ** The passing of time *)

Lemma elapse_idle d w :
  timers w = [] -> elapse' d w = (Ok tt, set_now (now w + d) w).
Proof. intro Ht. unfold elapse. rewrite Ht. reflexivity. Qed.

Lemma elapse_not_due d w id due :
  timers w = [(id, due)] -> now w + d < due ->
  elapse' d w = (Ok tt, set_now (now w + d) w).
Proof.
  intros Ht Hlt. unfold elapse. rewrite Ht. cbn [List.length run_due].
  unfold bind. rewrite Ht. cbn [earliest snd].
  destruct (Nat.leb_spec due (now w + d)); [lia|reflexivity].
Qed.

Lemma elapse_due d w id due :
  timers w = [(id, due)] -> due <= now w + d ->
  elapse' d w =
  (Ok tt, set_now (now w + d) (snd (recompute' (set_now due (set_timers [] w))))).
Proof.
  intros Ht Hle. unfold elapse. rewrite Ht. cbn [List.length run_due].
  unfold bind at 1. unfold bind at 1. rewrite Ht. cbn [earliest snd].
  destruct (Nat.leb_spec due (now w + d)); [|lia].
  unfold run_timeout. rewrite Ht. cbn [filter fst snd]. rewrite Nat.eqb_refl.
  cbn [negb].
  destruct (recompute_effect (set_now due (set_timers [] w))) as (c & tr & Heq & _).
  rewrite Heq. reflexivity.
Qed.

(** ** The trigger is always Idle or PendingRecompute *)

Lemma run_cons ev evs w : run' (ev :: evs) w = run' evs (exec' ev w).
Proof. reflexivity. Qed.

Lemma run_app evs1 evs2 w : run' (evs1 ++ evs2) w = run' evs2 (run' evs1 w).
Proof. unfold run. apply fold_left_app. Qed.

Lemma exec_Startup w :
  exists tr,
    aggregator_runs tr = [] /\
    exec' Startup w =
    match fst (calculateStats' w) with
    | Ok s =>
        set_watchers (S (watchers w))
          (set_statsCache (Some s)
             (set_trace (trace w ++ (now w, ReadFile) :: tr) w))
    | Err e => set_trace (trace w ++ (now w, ReadFile) :: tr) w
    end.
Proof.
  destruct (initStatsCache_effect w) as (tr & Hruns & Heq).
  exists tr. split; [assumption|]. unfold exec, step. rewrite Heq.
  now destruct (fst (calculateStats' w)).
Qed.

Lemma exec_HttpGetStats w :
  exists r, exec' HttpGetStats w = set_trace (trace w ++ [(now w, Respond r)]) w.
Proof.
  unfold exec, step, get_stats_route. unfold_M.
  destruct (statsCache w); eexists; reflexivity.
Qed.

Lemma exec_trigger_state ev w : trigger_state w -> trigger_state (exec' ev w).
Proof.
  intro Hinv. destruct ev as [|eventType|f|d|].
  - destruct (exec_Startup w) as (tr & _ & ->).
    destruct (fst (calculateStats' w)); exact Hinv.
  - unfold exec, step.
    destruct (String.eqb eventType "change") eqn:Hty.
    + apply String.eqb_eq in Hty. subst eventType.
      destruct (watchers w) as [|n] eqn:Hn; [exact Hinv|].
      destruct (notify_watchers_change (S n) w Hinv ltac:(lia)) as [_ Hre].
      eapply restarted_trigger_state; eassumption.
    + now rewrite notify_watchers_ignored.
  - exact Hinv.
  - unfold exec, step.
    destruct Hinv as [Ht|(id & due & Ht & Hd & Hlt)].
    + rewrite (elapse_idle _ _ Ht). now left.
    + destruct (Nat.le_gt_cases due (now w + d)) as [Hle|Hgt].
      * rewrite (elapse_due _ _ _ _ Ht Hle).
        destruct (recompute_effect (set_now due (set_timers [] w)))
          as (c & tr & -> & _).
        now left.
      * rewrite (elapse_not_due _ _ _ _ Ht Hgt). right.
        exists id, due. now repeat split.
  - destruct (exec_HttpGetStats w) as [r ->]. exact Hinv.
Qed.

Lemma run_trigger_state evs w : trigger_state w -> trigger_state (run' evs w).
Proof.
  revert w; induction evs as [|ev evs IH]; intros w Hinv; [exact Hinv|].
  rewrite run_cons. apply IH. now apply exec_trigger_state.
Qed.

Lemma boot_trigger_state f : trigger_state (boot f).
Proof. now left. Qed.

(** ** Debounce *)

Lemma run_mutation f w :
  trigger_state w -> 1 <= watchers w ->
  restarted_from (set_file f w) (run' (mutation f) w).
Proof.
  intros Hinv Hw. unfold mutation. rewrite !run_cons.
  change (exec' (StoreWrite f) w) with (set_file f w).
  unfold run, fold_left, exec, step.
  apply notify_watchers_change; assumption.
Qed.

Lemma run_burst_rest rest :
  forall w,
    restarted_from w w -> 1 <= watchers w ->
    Forall (fun gf => fst gf < debounce_delay) rest ->
    let w1 := run' (flat_map (fun gf => Elapse (fst gf) :: mutation (snd gf)) rest) w in
    (exists h, timers w1 = [(h, now w1 + debounce_delay)]) /\
    trigger_state w1 /\
    now w1 = now w + list_sum (map fst rest) /\
    trace w1 = trace w /\
    statsCache w1 = statsCache w.
Proof.
  induction rest as [|[gap f] rest IH]; intros w Hre Hw Hgaps; cbn zeta.
  - cbn [flat_map map list_sum]. change (run' [] w) with w.
    destruct Hre as ((h & Ht & Hd) & _).
    repeat split; eauto using restarted_trigger_state.
    right. exists h, (now w + debounce_delay).
    repeat split; try assumption. unfold debounce_delay; lia.
  - inversion Hgaps as [|? ? Hgap Hrest]; subst. cbn [fst snd] in Hgap.
    cbn [flat_map fst snd]. rewrite <- app_comm_cons, run_cons, run_app.
    destruct Hre as ((h & Ht & Hd) & _).
    assert (He : exec' (Elapse gap) w = set_now (now w + gap) w).
    { unfold exec, step. rewrite (elapse_not_due gap w h _ Ht); [reflexivity|lia]. }
    rewrite He.
    assert (Hinv : trigger_state (set_now (now w + gap) w)).
    { right. exists h, (now w + debounce_delay). proj_world. repeat split; auto. lia. }
    pose proof (run_mutation f _ Hinv Hw) as Hre1.
    set (w1 := run' (mutation f) (set_now (now w + gap) w)) in *.
    destruct Hre1 as (Hp1 & Hf1 & Hc1 & Hw1 & Hn1 & Ht1). proj_world_all.
    assert (Hre1 : restarted_from w1 w1).
    { unfold restarted_from. repeat split; auto.
      destruct Hp1 as (h1 & Hp1 & Hd1). exists h1. now rewrite Hn1. }
    destruct (IH w1 Hre1 ltac:(lia) Hrest) as (Hp & Hinv2 & Hn & Htr & Hc).
    repeat split; try assumption.
    + rewrite Hn, Hn1.
      change (list_sum (map fst ((gap, f) :: rest)))
        with (gap + list_sum (map fst rest)).
      lia.
    + congruence.
    + congruence.
Qed.

(** C4.  A burst of K >= 1 mutation notifications, each less than the
    debounce delay (300) after the one before, makes the trigger invoke the
    Aggregator exactly once, [debounce_delay] after the last notification:
    while the burst lasts nothing is invoked and the one pending timeout is
    the restarted one, due [debounce_delay] after the latest notification;
    once [debounce_delay] or more has passed after the burst, one
    invocation has been added, at that due time, and nothing is pending. *)
Theorem debounced_burst_runs_once :
  forall (f0 : file_state) (evs : list event)
         (first : file_state) (rest : list (nat * file_state)) (d : nat),
    let w := run' evs (boot f0) in
    1 <= watchers w ->
    Forall (fun gf => fst gf < debounce_delay) rest ->
    debounce_delay <= d ->
    let w1 := run' (burst first rest) w in
    let w2 := run' [Elapse d] w1 in
    now w1 = now w + list_sum (map fst rest) /\
    aggregator_runs (trace w1) = aggregator_runs (trace w) /\
    (exists h, timers w1 = [(h, now w1 + debounce_delay)]) /\
    aggregator_runs (trace w2) = aggregator_runs (trace w) ++ [now w1 + debounce_delay] /\
    timers w2 = [].
Proof.
  intros f0 evs first rest d w Hw Hgaps Hd w1 w2.
  assert (Hinv : trigger_state w)
    by (apply run_trigger_state, boot_trigger_state).
  pose proof (run_mutation first w Hinv Hw) as Hre.
  set (wa := run' (mutation first) w) in *.
  destruct Hre as (Hp & Hf & Hc & Hwa & Hn & Ht). proj_world_all.
  assert (Hra : restarted_from wa wa).
  { unfold restarted_from. repeat split; auto.
    destruct Hp as (h & Hp & Hdt). exists h. now rewrite Hn. }
  destruct (run_burst_rest rest wa Hra ltac:(lia) Hgaps)
    as ((h & Ht1) & Hinv1 & Hn1 & Htr1 & Hc1).
  assert (Hw1 : w1 = run' (flat_map (fun gf => Elapse (fst gf) :: mutation (snd gf)) rest) wa).
  { unfold w1, burst. now rewrite run_app. }
  rewrite <- Hw1 in *.
  assert (Hfire : exec' (Elapse d) w1 =
                  set_now (now w1 + d)
                    (snd (recompute' (set_now (now w1 + debounce_delay) (set_timers [] w1))))).
  { unfold exec, step. rewrite (elapse_due d w1 h _ Ht1); [reflexivity|lia]. }
  unfold w2. rewrite run_cons, Hfire. change (run' [] ?x) with x.
  destruct (recompute_effect (set_now (now w1 + debounce_delay) (set_timers [] w1)))
    as (c & tr & -> & Hruns & _).
  proj_world.
  repeat split.
  - rewrite Hn1, Hn. reflexivity.
  - congruence.
  - eauto.
  - rewrite aggregator_runs_app. cbn [aggregator_runs]. rewrite Hruns.
    now rewrite Htr1, Ht.
Qed.

(** ** What can be written to the cache slot *)

(** Whatever timeouts are pending, running those that are due throws
    nothing, leaves the store alone, and either leaves the cache slot alone
    or puts in it what [calculateStats] returns on the store. *)
Lemma run_due_cache rounds deadline :
  forall w,
    fst (run_due' rounds deadline w) = Ok tt /\
    file (snd (run_due' rounds deadline w)) = file w /\
    (statsCache (snd (run_due' rounds deadline w)) = statsCache w \/
     exists s, statsCache (snd (run_due' rounds deadline w)) = Some s /\
               fst (calculateStats' (boot (file w))) = Ok s).
Proof.
  induction rounds as [|k IH]; intro w; cbn [run_due].
  - repeat split. now left.
  - destruct (earliest (timers w)) as [t|]; [|repeat split; now left].
    destruct (Nat.leb (snd t) deadline); [|repeat split; now left].
    unfold bind, run_timeout.
    set (w0 := set_now (snd t) (set_timers _ w)).
    destruct (recompute_effect w0) as (c & tr & -> & _ & Hc).
    set (w1 := set_statsCache c _).
    destruct (IH w1) as (Hok & Hf & Hcache).
    rewrite (calculateStats_result_of_store w0) in Hc.
    change (file w0) with (file w) in Hc. change (file w1) with (file w) in *.
    repeat split; try assumption.
    destruct Hcache as [Hsame|Hnew]; [|now right].
    rewrite Hsame. change (statsCache w1) with c.
    destruct (fst (calculateStats' (boot (file w)))) as [s|e].
    + right. exists s. now subst c.
    + left. subst c. reflexivity.
Qed.

Lemma elapse_cache d w :
  fst (elapse' d w) = Ok tt /\
  file (snd (elapse' d w)) = file w /\
  (statsCache (snd (elapse' d w)) = statsCache w \/
   exists s, statsCache (snd (elapse' d w)) = Some s /\
             fst (calculateStats' (boot (file w))) = Ok s).
Proof.
  unfold elapse, bind.
  destruct (run_due_cache (List.length (timers w)) (now w + d) w) as (Hok & Hf & Hc).
  destruct (run_due' (List.length (timers w)) (now w + d) w) as [r w1].
  cbn [fst snd] in *. subst r. proj_world. now repeat split.
Qed.

Lemma notify_watchers_cache n eventType :
  forall w,
    file (snd (notify_watchers n eventType w)) = file w /\
    statsCache (snd (notify_watchers n eventType w)) = statsCache w.
Proof.
  induction n as [|n IH]; intro w; cbn [notify_watchers]; [now split|].
  unfold bind.
  assert (H1 : exists w1, on_watch_event eventType w = (Ok tt, w1) /\
                          file w1 = file w /\ statsCache w1 = statsCache w).
  { unfold on_watch_event. destruct (String.eqb eventType "change").
    - unfold_M. destruct (debounceTimer w); eexists; repeat split.
    - eexists; repeat split. }
  destruct H1 as (w1 & -> & Hf & Hc).
  destruct (IH w1) as [Hf1 Hc1]. split; congruence.
Qed.

Lemma exec_cache ev w :
  file (exec' ev w) = match ev with StoreWrite f => f | _ => file w end /\
  (statsCache (exec' ev w) = statsCache w \/
   exists s, statsCache (exec' ev w) = Some s /\
             fst (calculateStats' (boot (file w))) = Ok s).
Proof.
  destruct ev as [|eventType|f|d|].
  - destruct (exec_Startup w) as (tr & _ & ->).
    rewrite (calculateStats_result_of_store w).
    destruct (fst (calculateStats' (boot (file w)))) as [s|e].
    + split; [reflexivity|]. right. now exists s.
    + split; [reflexivity|]. now left.
  - unfold exec, step.
    destruct (notify_watchers_cache (watchers w) eventType w) as [Hf Hc].
    split; [assumption|now left].
  - split; [reflexivity|now left].
  - unfold exec, step. destruct (elapse_cache d w) as (_ & Hf & Hc). now split.
  - destruct (exec_HttpGetStats w) as [r ->]. split; [reflexivity|now left].
Qed.

Lemma store_history_head f evs : In f (store_history f evs).
Proof.
  revert f; induction evs as [|ev evs IH]; intro f; [now left|].
  destruct ev; cbn [store_history]; try apply IH. now left.
Qed.


(** A Stats value that [calculateStats] returns satisfies the invariant
    for the store content it was computed from. *)
Lemma calculateStats_invariant fs s :
  fst (calculateStats' (boot fs)) = Ok s ->
  exists items,
    fs = Parsed items /\ Stats_invariant items s.
Proof.
  unfold calculateStats, mean; unfold_M; proj_world. cbn [boot file].
  destruct fs as [e|e|items]; proj_world; try discriminate.
  repeat (break_match; proj_world); try discriminate.
  all: intros [= <-]; eexists; (split; [reflexivity|]).
  - split; [reflexivity|]. intro H; now elim H.
  - match goal with H : length_is_zero _ = Ok false |- _ =>
      cbn [length_is_zero] in H; injection H as Hz; apply Nat.eqb_neq in Hz end.
    split; [cbn [total]; intro; contradiction|]. intros _.
    eexists; split; [reflexivity|]. split; [reflexivity|].
    cbn [total averagePrice].
    intros prices Hp.
    match goal with
    | Hm : array_map _ _ = Ok ?l, Hr : reduce _ ?l _ = Ok ?v,
      Hd : js_div _ _ ?v _ = Ok ?q |- ?q = _ =>
        rewrite (array_map_numeric_prices _ _ Hp) in Hm; injection Hm as <-;
        rewrite reduce_numbers in Hr; injection Hr as <-;
        rewrite js_div_numbers, length_map in Hd; injection Hd as <-
    end.
    reflexivity.
Qed.


(** ** Failure isolation *)

Lemma reads_keep_cache n :
  forall w, statsCache (run' (repeat HttpGetStats n) w) = statsCache w.
Proof.
  induction n as [|n IH]; intro w; [reflexivity|].
  cbn [repeat]. rewrite run_cons, IH.
  now destruct (exec_HttpGetStats w) as [r ->].
Qed.

(** C5.  When the store is such that the Aggregator fails, the passing of
    time, with whatever debounced recompute it fires, lets no exception
    escape into the event loop and leaves the cache slot as it was: every
    later [getStats()] returns the value that was there before. *)
Theorem failed_recompute_keeps_cache :
  forall (w : world) (e : exn) (d : nat),
    fst (calculateStats' w) = Err e ->
    fst (step' (Elapse d) w) = Ok tt /\
    statsCache (exec' (Elapse d) w) = statsCache w /\
    forall n : nat,
      fst (getStats (run' (repeat HttpGetStats n) (exec' (Elapse d) w)))
      = Ok (statsCache w).
Proof.
  intros w e d Hfail.
  destruct (elapse_cache d w) as (Hok & _ & Hc).
  assert (Hsame : statsCache (exec' (Elapse d) w) = statsCache w).
  { destruct Hc as [Hc|(s & _ & Hs)]; [exact Hc|].
    rewrite <- calculateStats_result_of_store in Hs. congruence. }
  repeat split; try assumption.
  intro n. unfold getStats. cbn [fst]. now rewrite reads_keep_cache, Hsame.
Qed.

(** The callback itself, whatever the store: nothing escapes it. *)
Lemma recompute_never_throws w : fst (recompute' w) = Ok tt.
Proof. now destruct (recompute_effect w) as (c & tr & -> & _). Qed.

(** ** Start-up *)

(** C6.  [initStatsCache] runs the Aggregator once, at once (no timeout is
    set, the clock does not move), and on success stores the result in the
    cache slot and installs the watcher; when that run fails,
    [initStatsCache] fails with the same error, and neither the cache slot
    nor the watchers have changed. *)
Theorem initStatsCache_populates_or_rethrows :
  forall w : world,
    aggregator_runs (trace (snd (initStatsCache' w)))
    = aggregator_runs (trace w) ++ [now w] /\
    timers (snd (initStatsCache' w)) = timers w /\
    now (snd (initStatsCache' w)) = now w /\
    (forall s, fst (calculateStats' w) = Ok s ->
               fst (initStatsCache' w) = Ok tt /\
               statsCache (snd (initStatsCache' w)) = Some s /\
               watchers (snd (initStatsCache' w)) = S (watchers w)) /\
    (forall e, fst (calculateStats' w) = Err e ->
               fst (initStatsCache' w) = Err e /\
               statsCache (snd (initStatsCache' w)) = statsCache w /\
               watchers (snd (initStatsCache' w)) = watchers w).
Proof.
  intro w. destruct (initStatsCache_effect w) as (tr & Hruns & ->).
  destruct (fst (calculateStats' w)) as [s|e]; proj_world.
  all: rewrite aggregator_runs_app; cbn [aggregator_runs]; rewrite Hruns.
  all: repeat split; try discriminate; congruence.
Qed.

(** ** Reads *)

(** C7.  A read that finds the cache slot never populated ([statsCache] is
    still [null]) is answered by [next(err)] with [err.status = 503]: the
    handler throws nothing, sends no Stats value, and changes nothing. *)
Theorem read_before_populate_is_503 :
  forall w : world,
    statsCache w = None ->
    get_stats_route w = (Ok (Next (HttpError "Stats not initialized" 503)), w) /\
    step' HttpGetStats w =
    (Ok tt,
     set_trace
       (trace w ++ [(now w, Respond (Next (HttpError "Stats not initialized" 503)))])
       w).
Proof.
  intros w H. unfold step, get_stats_route. unfold_M. rewrite H. now split.
Qed.

(** Once populated, the cache slot is never [null] again: a read finds
    [null] only if no run of the Aggregator has succeeded so far. *)
Lemma cache_stays_populated ev w :
  statsCache w <> None -> statsCache (exec' ev w) <> None.
Proof.
  intro H. destruct (exec_cache ev w) as [_ [Hc|(s & Hc & _)]]; congruence.
Qed.

(** ** Notifications other than [change] *)

(** C10.  A notification whose [eventType] is not ['change'] (a
    ['rename']) changes nothing at all: no timeout is set, so the trigger
    does not go to PendingRecompute, and nothing is added to the trace, so
    no Aggregator run comes of it. *)
Theorem rename_is_ignored :
  forall (w : world) (eventType : string),
    eventType <> "change" ->
    step' (FsEvent eventType) w = (Ok tt, w).
Proof.
  intros w eventType H. unfold step.
  apply notify_watchers_ignored. now apply String.eqb_neq.
Qed.

(* ===================================================================== *)
(** * Further properties of the stats cache *)
(* ===================================================================== *)

(** X1.  In every state the process reaches, at most one timeout is pending;
    when one is, it is the one [debounceTimer] names and it is not yet
    due. *)
Theorem at_most_one_pending_timeout :
  forall (f0 : file_state) (evs : list event),
    let w := run' evs (boot f0) in
    List.length (timers w) <= 1 /\ trigger_state w.
Proof.
  intros f0 evs w.
  assert (H : trigger_state w) by apply run_trigger_state, boot_trigger_state.
  split; [|exact H].
  destruct H as [->|(id & due & -> & _)]; simpl; lia.
Qed.

(** ** Notifications that are spaced out *)

Lemma run_mutation_then_quiet f d w :
  trigger_state w -> 1 <= watchers w -> debounce_delay <= d ->
  let w' := run' (mutation f ++ [Elapse d]) w in
  aggregator_runs (trace w') = aggregator_runs (trace w) ++ [now w + debounce_delay] /\
  timers w' = [] /\ watchers w' = watchers w /\ now w' = now w + d.
Proof.
  intros Hinv Hw Hd. cbn zeta. rewrite run_app.
  pose proof (run_mutation f w Hinv Hw) as Hre.
  set (w1 := run' (mutation f) w) in *.
  destruct Hre as ((h & Ht & _) & _ & _ & Hw1 & Hn & Htr). proj_world_all.
  rewrite run_cons. change (run' [] ?x) with x.
  unfold exec, step. rewrite (elapse_due d w1 h _ Ht) by lia.
  destruct (recompute_effect (set_now (now w + debounce_delay) (set_timers [] w1)))
    as (c & tr & -> & Hruns & _).
  proj_world. rewrite aggregator_runs_app. cbn [aggregator_runs].
  rewrite Hruns, Htr, Hn. repeat split; auto.
Qed.

(** X2.  Notifications that each come after the previous one's delay has run
    out are not merged: K of them make K Aggregator runs, and leave nothing
    pending. *)
Theorem spaced_notifications_run_each :
  forall (f0 : file_state) (evs : list event) (ms : list (file_state * nat)),
    let w := run' evs (boot f0) in
    1 <= watchers w ->
    Forall (fun fd => debounce_delay <= snd fd) ms ->
    ms <> [] ->
    let w' := run' (spaced ms) w in
    List.length (aggregator_runs (trace w'))
    = List.length (aggregator_runs (trace w)) + List.length ms /\
    timers w' = [].
Proof.
  intros f0 evs ms w Hw Hall Hne w'.
  assert (Hinv : trigger_state w)
    by (apply run_trigger_state, boot_trigger_state).
  clearbody w. subst w'. clear f0 evs.
  assert (Hgen : forall ms w,
             trigger_state w -> 1 <= watchers w ->
             Forall (fun fd => debounce_delay <= snd fd) ms ->
             List.length (aggregator_runs (trace (run' (spaced ms) w)))
             = List.length (aggregator_runs (trace w)) + List.length ms /\
             (ms <> [] -> timers (run' (spaced ms) w) = [])).
  { clear. induction ms as [|[f d] ms IH]; intros w Hinv Hw Hall.
    - change (run' (spaced []) w) with w. split; [simpl; lia|congruence].
    - inversion Hall as [|? ? Hd Hrest]; subst. cbn [snd] in Hd.
      change (spaced ((f, d) :: ms)) with ((mutation f ++ [Elapse d]) ++ spaced ms).
      rewrite run_app.
      destruct (run_mutation_then_quiet f d w Hinv Hw Hd) as (Hr & Ht & Hw1 & _).
      set (w1 := run' (mutation f ++ [Elapse d]) w) in *.
      destruct (IH w1 (or_introl Ht) ltac:(lia) Hrest) as [Hlen Htim].
      split.
      + rewrite Hlen, Hr, length_app. simpl. lia.
      + intros _. destruct ms as [|m ms']; [exact Ht|]. apply Htim. discriminate. }
  destruct (Hgen ms w Hinv Hw Hall) as [Hlen Htim]. split; auto.
Qed.

(** ** What the cache holds after a burst *)

Lemma file_run evs : forall w, file (run' evs w) = current_store (file w) evs.
Proof.
  induction evs as [|ev evs IH]; intro w; [reflexivity|].
  rewrite run_cons, IH. destruct (exec_cache ev w) as [-> _].
  unfold current_store. cbn [fold_left]. now destruct ev.
Qed.

Lemma current_store_app f evs1 evs2 :
  current_store f (evs1 ++ evs2) = current_store (current_store f evs1) evs2.
Proof. unfold current_store. apply fold_left_app. Qed.

Lemma last_default_irrelevant {A} (l : list A) :
  forall x d d', last (x :: l) d = last (x :: l) d'.
Proof.
  induction l as [|y l IH]; intros x d d'; [reflexivity|].
  change (last (x :: y :: l) d) with (last (y :: l) d).
  change (last (x :: y :: l) d') with (last (y :: l) d'). apply IH.
Qed.

Lemma current_store_burst_rest rest :
  forall f,
    current_store f (flat_map (fun gf => Elapse (fst gf) :: mutation (snd gf)) rest)
    = last (map snd rest) f.
Proof.
  induction rest as [|[gap f'] rest IH]; intro f; [reflexivity|].
  cbn [flat_map fst snd map].
  change (current_store f ((Elapse gap :: mutation f') ++ ?l))
    with (current_store f' l).
  rewrite IH. destruct rest as [|p rest]; [reflexivity|].
  cbn [map]. change (last (f' :: snd p :: map snd rest) f)
    with (last (snd p :: map snd rest) f).
  apply last_default_irrelevant.
Qed.

(** ** What a read can be answered with *)

Lemma calculateStats_no_response w t r :
  In (t, Respond r) (trace (snd (calculateStats' w))) -> In (t, Respond r) (trace w).
Proof.
  run_calculateStats w.
  all: intro Hin; in_trace Hin.
Qed.

Lemma recompute_no_response w t r :
  In (t, Respond r) (trace (snd (recompute' w))) -> In (t, Respond r) (trace w).
Proof.
  pose proof (calculateStats_no_response w t r) as Hcalc.
  unfold recompute. unfold_M.
  destruct (calculateStats' w) as [[s|e] w1]; proj_world_all.
  all: intro Hin; in_trace Hin; auto.
Qed.

Lemma initStatsCache_no_response w t r :
  In (t, Respond r) (trace (snd (initStatsCache' w))) -> In (t, Respond r) (trace w).
Proof.
  pose proof (calculateStats_no_response w t r) as Hcalc.
  unfold initStatsCache. unfold_M.
  destruct (calculateStats' w) as [[s|e] w1]; proj_world_all.
  all: intro Hin; in_trace Hin; auto.
Qed.

Lemma run_due_no_response rounds deadline :
  forall w t r,
    In (t, Respond r) (trace (snd (run_due' rounds deadline w))) ->
    In (t, Respond r) (trace w).
Proof.
  induction rounds as [|k IH]; intros w t r; cbn [run_due]; [auto|].
  destruct (earliest (timers w)) as [tm|]; [|auto].
  destruct (Nat.leb (snd tm) deadline); [|auto].
  unfold bind, run_timeout.
  set (w0 := set_now (snd tm) (set_timers _ w)).
  pose proof (recompute_no_response w0 t r) as Hre.
  pose proof (recompute_never_throws w0) as Hok.
  destruct (recompute' w0) as [res w1]. cbn [fst snd] in *. subst res.
  intro Hin. apply IH in Hin. auto.
Qed.

Lemma notify_watchers_trace n eventType :
  forall w, trace (snd (notify_watchers n eventType w)) = trace w.
Proof.
  induction n as [|n IH]; intro w; cbn [notify_watchers]; [reflexivity|].
  unfold bind.
  assert (H1 : exists w1, on_watch_event eventType w = (Ok tt, w1) /\
                          trace w1 = trace w).
  { unfold on_watch_event. destruct (String.eqb eventType "change").
    - unfold_M. destruct (debounceTimer w); eexists; split; reflexivity.
    - eexists; split; reflexivity. }
  destruct H1 as (w1 & -> & Htr). now rewrite IH.
Qed.

(** A step adds a response to the trace only when it is a read, and then
    the response is the one the handler computes. *)
Lemma exec_responses ev w t r :
  In (t, Respond r) (trace (exec' ev w)) ->
  In (t, Respond r) (trace w) \/
  (ev = HttpGetStats /\ fst (get_stats_route w) = Ok r).
Proof.
  destruct ev as [|eventType|f|d|]; unfold exec, step.
  - intro Hin. left. now apply initStatsCache_no_response in Hin.
  - rewrite notify_watchers_trace. auto.
  - auto.
  - unfold elapse, bind.
    pose proof (run_due_no_response (List.length (timers w)) (now w + d) w t r) as Hd.
    destruct (run_due_cache (List.length (timers w)) (now w + d) w) as (Hok & _).
    destruct (run_due' (List.length (timers w)) (now w + d) w) as [res w1].
    cbn [fst snd] in *. subst res. proj_world. auto.
  - unfold get_stats_route. unfold_M.
    destruct (statsCache w); proj_world; intro Hin; in_trace Hin;
      first [now left
            | right; split; [reflexivity|]; injection Hin as _ <-; reflexivity].
Qed.

Lemma store_history_step ev evs w fs :
  In fs (store_history (file (exec' ev w)) evs) ->
  In fs (store_history (file w) (ev :: evs)).
Proof.
  destruct (exec_cache ev w) as [-> _].
  destruct ev; cbn [store_history]; auto. now right.
Qed.

Lemma run_responses evs :
  forall w t r,
    In (t, Respond r) (trace (run' evs w)) ->
    In (t, Respond r) (trace w) \/
    r = Next (HttpError "Stats not initialized" 503) \/
    exists s,
      r = ResJson s /\
      (statsCache w = Some s \/
       exists fs, In fs (store_history (file w) evs) /\
                  fst (calculateStats' (boot fs)) = Ok s).
Proof.
  induction evs as [|ev evs IH]; intros w t r Hin; [now left|].
  rewrite run_cons in Hin.
  destruct (IH _ _ _ Hin) as [Hold|[H503|(s & -> & Hs)]].
  - destruct (exec_responses _ _ _ _ Hold) as [Hw|[-> Hroute]]; [now left|].
    right. unfold get_stats_route, try_catch, bind, getStats, throw, ret in Hroute.
    destruct (statsCache w) as [s|] eqn:Hc; cbn [fst] in Hroute;
      injection Hroute as <-; [right|now left].
    exists s. split; [reflexivity|now left].
  - right. now left.
  - right. right. exists s. split; [reflexivity|].
    destruct Hs as [Hs|(fs & Hfs & Hcalc)].
    + destruct (exec_cache ev w) as [_ [Hsame|(s' & Hs' & Hcalc)]].
      * left. congruence.
      * right. exists (file w). split; [apply store_history_head|congruence].
    + right. exists fs. split; [now apply store_history_step|assumption].
Qed.

(** X4.  Whatever happens, a read is answered either by the 503 of the
    empty cache or with a Stats value that the Aggregator returned, whole,
    for a content the store has had: no default, no half-written value. *)
Theorem reads_see_503_or_computed_stats :
  forall (f0 : file_state) (evs : list event) (t : nat) (r : response),
    In (t, Respond r) (trace (run' evs (boot f0))) ->
    r = Next (HttpError "Stats not initialized" 503) \/
    exists s items,
      r = ResJson s /\
      In (Parsed items) (store_history f0 evs) /\
      fst (calculateStats' (boot (Parsed items))) = Ok s /\
      Stats_invariant items s.
Proof.
  intros f0 evs t r Hin.
  destruct (run_responses _ _ _ _ Hin) as [Hboot|[H503|(s & -> & Hs)]].
  - contradiction.
  - now left.
  - right. destruct Hs as [Hs|(fs & Hfs & Hcalc)]; [discriminate|].
    destruct (calculateStats_invariant _ _ Hcalc) as (items & -> & Hinv).
    exists s, items. auto.
Qed.

(** ** How often the Aggregator runs *)

Lemma exec_runs_bound ev w :
  trigger_state w ->
  List.length (aggregator_runs (trace (exec' ev w))) + List.length (timers (exec' ev w))
  <= List.length (aggregator_runs (trace w)) + List.length (timers w)
     + count_startups [ev] + count_changes [ev].
Proof.
  intro Hinv. destruct ev as [|eventType|f|d|].
  - destruct (exec_Startup w) as (tr & Hruns & ->).
    destruct (fst (calculateStats' w)); proj_world;
      rewrite aggregator_runs_app; cbn [aggregator_runs]; rewrite Hruns;
      rewrite length_app; cbn; lia.
  - unfold exec, step, count_changes, count_startups. cbn [filter].
    destruct (String.eqb eventType "change") eqn:Hty.
    + apply String.eqb_eq in Hty. subst eventType.
      destruct (watchers w) as [|n] eqn:Hn; [cbn; lia|].
      destruct (notify_watchers_change (S n) w Hinv ltac:(lia))
        as [_ ((h & -> & _) & _ & _ & _ & _ & ->)].
      cbn. lia.
    + rewrite notify_watchers_ignored by assumption. cbn. lia.
  - cbn. lia.
  - unfold exec, step.
    destruct Hinv as [Ht|(id & due & Ht & Hd & Hlt)].
    + rewrite (elapse_idle _ _ Ht). cbn. lia.
    + destruct (Nat.le_gt_cases due (now w + d)) as [Hle|Hgt].
      * rewrite (elapse_due _ _ _ _ Ht Hle).
        destruct (recompute_effect (set_now due (set_timers [] w)))
          as (c & tr & -> & Hruns & _).
        proj_world. rewrite aggregator_runs_app. cbn [aggregator_runs].
        rewrite Hruns, length_app, Ht. cbn. lia.
      * rewrite (elapse_not_due _ _ _ _ Ht Hgt). cbn. lia.
  - destruct (exec_HttpGetStats w) as [r ->]. proj_world.
    rewrite aggregator_runs_app. cbn. rewrite app_nil_r. lia.
Qed.

Lemma run_runs_bound evs :
  forall w,
    trigger_state w ->
    List.length (aggregator_runs (trace (run' evs w))) + List.length (timers (run' evs w))
    <= List.length (aggregator_runs (trace w)) + List.length (timers w)
       + count_startups evs + count_changes evs.
Proof.
  induction evs as [|ev evs IH]; intros w Hinv; [cbn; lia|].
  rewrite run_cons.
  pose proof (IH _ (exec_trigger_state ev w Hinv)) as H1.
  pose proof (exec_runs_bound ev w Hinv) as H2.
  change (ev :: evs) with ([ev] ++ evs).
  unfold count_startups, count_changes in *. rewrite !filter_app, !length_app.
  cbn [app] in *. lia.
Qed.

(** X5.  The Aggregator never runs on its own: the runs made so far, plus the
    one that may be pending, are at most the start-ups plus the [change]
    notifications received. *)
Theorem runs_bounded_by_notifications :
  forall (f0 : file_state) (evs : list event),
    let w := run' evs (boot f0) in
    List.length (aggregator_runs (trace w)) + List.length (timers w)
    <= count_startups evs + count_changes evs.
Proof.
  intros f0 evs w.
  pose proof (run_runs_bound evs (boot f0) (boot_trigger_state f0)) as H.
  cbn in H. subst w. lia.
Qed.

(** ** The cache slot is never emptied *)

(** X6.  Once the cache slot holds a value, no sequence of events makes it
    [null] again. *)
Theorem cache_never_reverts_to_null :
  forall (evs : list event) (w : world),
    statsCache w <> None -> statsCache (run' evs w) <> None.
Proof.
  induction evs as [|ev evs IH]; intros w H; [exact H|].
  rewrite run_cons. apply IH. now apply cache_stays_populated.
Qed.

(** ** Stores that are not what the Aggregator expects *)

(** X7.  A store whose JSON is not an array never yields Stats about
    records.  The empty string and an object whose own [length] is a Number
    [=== 0] pass for an empty record set: on them, and on nothing else,
    [calculateStats] returns [{total: 0, averagePrice: 0}]; on every other
    store that is not an array it fails with a [TypeError]. *)
Theorem calculateStats_non_array_store :
  forall (w : world) (items : value),
    file w = Parsed items ->
    (forall elems, items <> VArray elems) ->
    let passes_for_empty :=
      items = VString "" \/
      exists props n,
        items = VObject props /\ lookup "length" props = Some (VNumber n) /\
        Num.strict_eq n Num.zero = true in
    (passes_for_empty -> fst (calculateStats' w) = Ok (mkStats 0 Num.zero)) /\
    (~ passes_for_empty -> exists msg, fst (calculateStats' w) = Err (TypeError msg)).
Proof.
  intros w items Hf Hna passes_for_empty. subst passes_for_empty.
  unfold calculateStats. unfold_M. proj_world. rewrite Hf.
  destruct items as [| |b|n|s|elems|props]; cbn [length_is_zero]; proj_world.
  1-4: split; [intros [H|(props & n0 & H & _)]; discriminate H
              |intros _; eexists; reflexivity].
  - destruct s as [|c s]; cbn [String.length Nat.eqb]; proj_world.
    + split; [reflexivity|]. intro H. elim H. now left.
    + split; [intros [H|(props & n0 & H & _)]; discriminate H
             |intros _; eexists; reflexivity].
  - now elim (Hna elems).
  - destruct (lookup "length" props) as [v|] eqn:Hl.
    + destruct v as [| |b|n|s|elems|props']; cbn [strict_eq_zero]; proj_world.
      4: destruct (Num.strict_eq n Num.zero) eqn:Hz; proj_world.
      4: { split; [reflexivity|]. intro H. elim H. right. exists props, n. auto. }
      all: split; [|intros _; eexists; reflexivity].
      all: intros [H|(props0 & n0 & H & Hl0 & Hz0)]; [discriminate H|].
      all: injection H as <-; rewrite Hl in Hl0; try discriminate Hl0.
      injection Hl0 as <-. congruence.
    + split; [|intros _; eexists; reflexivity].
      intros [H|(props0 & n0 & H & Hl0 & _)]; [discriminate H|].
      injection H as <-. rewrite Hl in Hl0. discriminate Hl0.
Qed.

(** ** Prices that are strings *)

Lemma string_prices_length items ps :
  string_prices items = Some ps -> List.length ps = List.length items.
Proof.
  revert ps; induction items as [|item rest IH]; intros ps H; simpl in H.
  - now inversion H.
  - destruct (string_price_of item); [|discriminate].
    destruct (string_prices rest) as [ps'|]; [|discriminate].
    inversion H; subst; simpl; f_equal; auto.
Qed.

Lemma array_map_string_prices items ps :
  string_prices items = Some ps ->
  array_map (get_prop "price") items = Ok (map VString ps).
Proof.
  revert ps; induction items as [|item rest IH]; intros ps H; simpl in H.
  - now inversion H.
  - destruct (string_price_of item) as [p|] eqn:Hp; [|discriminate].
    destruct (string_prices rest) as [ps'|]; [|discriminate].
    inversion H; subst.
    cbn [array_map map].
    assert (Hg : get_prop "price" item = Ok (VString p)).
    { destruct item; try discriminate. cbn in Hp |- *.
      destruct (lookup "price" props) as [[]|]; try discriminate.
      now injection Hp as ->. }
    rewrite Hg. cbn [rbind]. now rewrite (IH ps' eq_refl).
Qed.

Lemma append_assoc (a b c : string) : ((a ++ b) ++ c = a ++ (b ++ c))%string.
Proof. induction a as [|x a IH]; cbn; [reflexivity|now rewrite IH]. Qed.

Lemma reduce_strings ps :
  forall acc,
    reduce js_add' (map VString ps) (VString acc)
    = Ok (VString (acc ++ fold_right String.append "" ps)%string).
Proof.
  induction ps as [|p ps IH]; intro acc; cbn [map reduce fold_right].
  - f_equal. f_equal. induction acc as [|x acc IHa]; cbn; [reflexivity|].
    now rewrite <- IHa.
  - change (js_add' (VString acc) (VString p)) with (Ok (VString (acc ++ p)%string)).
    cbn [rbind]. rewrite IH. now rewrite append_assoc.
Qed.

(** X8.  When the prices are strings the [+] of [reduce] concatenates: for N >= 1
    records whose prices are the strings s1 ... sN, [averagePrice] is the
    Number that the text of [0] followed by s1 ... sN reads as, divided by
    N, not the mean of the numbers the strings stand for. *)
Theorem string_prices_are_concatenated :
  forall (w : world) (items : list value) (ps : list string),
    file w = Parsed (VArray items) ->
    1 <= List.length items ->
    string_prices items = Some ps ->
    fst (calculateStats' w)
    = Ok (mkStats (List.length items)
            (Num.div
               (StringToNumber
                  (NumberToString Num.zero ++ fold_right String.append "" ps)%string)
               (Num.of_nat (List.length items)))).
Proof.
  intros w items ps Hf Hn Hp.
  destruct items as [|x xs]; [simpl in Hn; lia|].
  rewrite (calculateStats_array _ _ _ Hf).
  unfold mean. unfold_M. rewrite (array_map_string_prices _ _ Hp).
  destruct ps as [|p ps]; [discriminate (string_prices_length _ _ Hp)|].
  cbn [map reduce].
  change (js_add' (VNumber Num.zero) (VString p))
    with (Ok (VString (NumberToString Num.zero ++ p)%string)).
  cbn [rbind]. rewrite reduce_strings. proj_world.
  rewrite append_assoc.
  change (js_div' (VString ?x) (VNumber ?n)) with (Ok (Num.div (StringToNumber x) n)).
  cbn [fst fold_right].
  pose proof (string_prices_length _ _ Hp) as Hl.
  cbn [List.length]. rewrite length_map. cbn [List.length] in Hl.
  now rewrite Hl.
Qed.

(* ===================================================================== *)
(** * Properties of the items routes *)
(* ===================================================================== *)

Variable parseInt : string -> number.

#[local] Abbreviation get_item_route' := (get_item_route parseInt).

(** ** Lookup by id *)

Lemma array_find_first n pre r post :
  Forall (fun x => present x = true /\ id_is n x = false) pre ->
  id_is n r = true ->
  array_find (fun i => rbind (get_prop "id" i)
                         (fun v => Ok (strict_eq_number v n)))
             (pre ++ r :: post)
  = Ok (Some r).
Proof.
  intros Hpre Hr. induction Hpre as [|x pre [Hx Hid] _ IH]; cbn [app array_find].
  - unfold id_is in Hr. destruct (get_prop "id" r) as [v|]; [|discriminate].
    cbn [rbind]. now rewrite Hr.
  - unfold id_is in Hid. destruct (get_prop "id" x) as [v|e] eqn:Hg.
    + cbn [rbind]. now rewrite Hid.
    + destruct x; discriminate.
Qed.

Lemma array_find_none n data :
  Forall (fun x => present x = true /\ id_is n x = false) data ->
  array_find (fun i => rbind (get_prop "id" i)
                         (fun v => Ok (strict_eq_number v n)))
             data
  = Ok None.
Proof.
  induction 1 as [|x data [Hx Hid] _ IH]; cbn [array_find]; [reflexivity|].
  unfold id_is in Hid. destruct (get_prop "id" x) as [v|e] eqn:Hg.
  - cbn [rbind]. now rewrite Hid.
  - destruct x; discriminate.
Qed.

Lemma id_is_object n r : id_is n r = true -> exists props, r = VObject props.
Proof.
  unfold id_is. destruct r; cbn; try discriminate. eauto.
Qed.

Lemma get_item_returns_first_match_at w id pre post r :
  file w = Parsed (VArray (pre ++ r :: post)) ->
  Forall (fun x => present x = true /\ id_is (parseInt id) x = false) pre ->
  id_is (parseInt id) r = true ->
  get_item_route' id w = (Ok (Json 200 r), w).
Proof.
  intros Hf Hpre Hr.
  unfold get_item_route, readData. unfold_M. rewrite Hf.
  rewrite (array_find_first _ _ _ _ Hpre Hr).
  destruct (id_is_object _ _ Hr) as [props ->]. reflexivity.
Qed.

(** X9.  [GET /api/items/:id] answers with the first record whose [id] is
    [===] the number read from the path, and leaves everything as it was:
    a later record with the same id is never returned. *)
Theorem get_item_returns_first_match :
  forall (w : world) (id : string) (pre post : list value) (r : value),
    file w = Parsed (VArray (pre ++ r :: post)) ->
    Forall (fun x => present x = true /\ id_is (parseInt id) x = false) pre ->
    id_is (parseInt id) r = true ->
    get_item_route' id w = (Ok (Json 200 r), w).
Proof.
  intros w id pre post r Hf Hpre Hr.
  exact (get_item_returns_first_match_at w id pre post r Hf Hpre Hr).
Qed.

(** X10.  When no record of the array has the id, the answer is [next(err)] with
    ['Item not found'] and status 404. *)
Theorem get_item_not_found_is_404 :
  forall (w : world) (id : string) (data : list value),
    file w = Parsed (VArray data) ->
    Forall (fun x => present x = true /\ id_is (parseInt id) x = false) data ->
    get_item_route' id w = (Ok (NextErr (HttpError "Item not found" 404)), w).
Proof.
  intros w id data Hf Hall.
  unfold get_item_route, readData. unfold_M. rewrite Hf.
  now rewrite (array_find_none _ _ Hall).
Qed.

Lemma id_is_NaN x : id_is Num.NaN x = false.
Proof.
  unfold id_is. destruct (get_prop "id" x) as [v|]; [|reflexivity].
  destruct v; try reflexivity. cbn. unfold Num.strict_eq, SFeqb.
  now destruct n.
Qed.

(** X11.  An id that [parseInt] cannot read is [NaN], which is [===] to nothing:
    on any array without [null] the answer is the 404, whatever the
    records' ids are. *)
Theorem get_item_unreadable_id_is_404 :
  forall (w : world) (id : string) (data : list value),
    file w = Parsed (VArray data) ->
    parseInt id = Num.NaN ->
    Forall (fun x => present x = true) data ->
    get_item_route' id w = (Ok (NextErr (HttpError "Item not found" 404)), w).
Proof.
  intros w id data Hf Hnan Hall.
  unfold get_item_route, readData. unfold_M. rewrite Hf.
  rewrite (array_find_none (parseInt id) data); [reflexivity|].
  rewrite Hnan. eapply Forall_impl; [|exact Hall].
  intros x Hx. split; [exact Hx|apply id_is_NaN].
Qed.

(** X12.  A [null] in the array is an error for every id that is not found
    before it: reading [i.id] throws, and the answer is [next] with that
    [TypeError] instead of a record or the 404. *)
Theorem get_item_null_record_is_an_error :
  forall (w : world) (id : string) (pre post : list value),
    file w = Parsed (VArray (pre ++ VNull :: post)) ->
    Forall (fun x => present x = true /\ id_is (parseInt id) x = false) pre ->
    exists msg, get_item_route' id w = (Ok (NextErr (TypeError msg)), w).
Proof.
  intros w id pre post Hf Hpre.
  unfold get_item_route, readData. unfold_M. rewrite Hf.
  assert (Hfind : exists msg,
             array_find (fun i => rbind (get_prop "id" i)
                                    (fun v => Ok (strict_eq_number v (parseInt id))))
                        (pre ++ VNull :: post)
             = Err (TypeError msg)).
  { clear Hf. induction Hpre as [|x pre [Hx Hid] _ IH]; cbn [app array_find].
    - cbn. eauto.
    - unfold id_is in Hid. destruct (get_prop "id" x) as [v|e] eqn:Hg.
      + cbn [rbind]. rewrite Hid. exact IH.
      + destruct x; discriminate. }
  destruct Hfind as [msg ->]. eauto.
Qed.

(** ** Creation *)

Lemma lookup_set_prop name v props :
  lookup name (set_prop name v props) = Some v.
Proof.
  induction props as [|[k x] rest IH]; cbn [set_prop lookup].
  - now rewrite String.eqb_refl.
  - destruct (String.eqb k name) eqn:Hk; cbn [lookup]; now rewrite Hk.
Qed.

Lemma lookup_set_prop_other name other v props :
  String.eqb name other = false ->
  lookup other (set_prop name v props) = lookup other props.
Proof.
  intro Hne. induction props as [|[k x] rest IH]; cbn [set_prop lookup].
  - now rewrite Hne.
  - destruct (String.eqb k name) eqn:Hk; cbn [lookup].
    + apply String.eqb_eq in Hk. subst k. now rewrite Hne.
    + now rewrite IH.
Qed.


(** X14.  When the store cannot be read or parsed, or does not hold an array, or
    when the body is [null] or missing, nothing is written: the answer is
    [next(err)] and the world is as it was. *)
Theorem post_item_failure_writes_nothing :
  forall (w : world) (body : value) (outcome : write_outcome),
    (forall data, file w <> Parsed (VArray data)) \/ present body = false ->
    exists err, post_item_route body outcome w = (Ok (NextErr err), w).
Proof.
  intros w body outcome H.
  unfold post_item_route, post_item_begin, post_item_end, readData, Date_now,
    writeData. unfold_M.
  destruct (file w) as [e|e|data] eqn:Hf; try (eexists; reflexivity).
  destruct H as [H|H].
  - destruct data; try (now elim (H elems));
      destruct body; cbn; eexists; reflexivity.
  - destruct body; try discriminate; cbn; eexists; reflexivity.
Qed.

(** ** Integers below 2^53 are finite Numbers *)

Lemma digits2_pos_bound p :
  forall k, (0 <= k -> Zpos p < 2 ^ k -> Zpos (digits2_pos p) <= k)%Z.
Proof.
  induction p as [p IH|p IH|]; intros k Hk Hlt; cbn [digits2_pos].
  - assert (k <> 0)%Z by (intros ->; cbn in Hlt; lia).
    replace k with (Z.succ (k - 1)) in Hlt by lia.
    rewrite Z.pow_succ_r in Hlt by lia.
    specialize (IH (k - 1)%Z ltac:(lia) ltac:(lia)). lia.
  - assert (k <> 0)%Z by (intros ->; cbn in Hlt; lia).
    replace k with (Z.succ (k - 1)) in Hlt by lia.
    rewrite Z.pow_succ_r in Hlt by lia.
    specialize (IH (k - 1)%Z ltac:(lia) ltac:(lia)). lia.
  - assert (k <> 0)%Z by (intros ->; cbn in Hlt; lia). lia.
Qed.

Lemma digits2_pos_iter_xO d :
  forall p, (Zpos (digits2_pos (Pos.iter xO p d)) = Zpos (digits2_pos p) + Zpos d)%Z.
Proof.
  induction d as [|d IH] using Pos.peano_ind; intro p.
  - cbn. lia.
  - rewrite Pos.iter_succ. cbn [digits2_pos]. rewrite Pos2Z.inj_succ, IH. lia.
Qed.

Lemma binary_round_small p :
  (Zpos (digits2_pos p) <= 53)%Z ->
  exists m e, binary_round 53 1024 false p 0 = S754_finite false m e.
Proof.
  intro Hd. unfold binary_round.
  assert (Hfexp : fexp 53 1024 (Zpos (digits2_pos p) + 0)
                  = (Zpos (digits2_pos p) - 53)%Z).
  { unfold fexp, emin. lia. }
  rewrite Hfexp. unfold shl_align.
  assert (Haux : forall mz ez,
             Zpos (digits2_pos mz) = 53%Z -> (-52 <= ez <= 0)%Z ->
             binary_round_aux 53 1024 false (Zpos mz) ez loc_Exact
             = S754_finite false mz ez).
  { intros mz ez Hmz Hez. unfold binary_round_aux, shr_fexp.
    cbn [Zdigits2]. rewrite Hmz.
    assert (Hf : (fexp 53 1024 (53 + ez) - ez = 0)%Z) by (unfold fexp, emin; lia).
    rewrite Hf.
    cbn [shr shr_record_of_loc shr_m loc_of_shr_record round_nearest_even Zdigits2].
    rewrite Hmz, Hf. cbn [shr shr_record_of_loc shr_m].
    destruct (Z.leb_spec ez (1024 - 53)); [reflexivity|lia]. }
  destruct (Zpos (digits2_pos p) - 53 - 0)%Z as [|q|d] eqn:Hs.
  - do 2 eexists. apply Haux; lia.
  - lia.
  - do 2 eexists. apply Haux.
    + rewrite digits2_pos_iter_xO. lia.
    + lia.
Qed.

(** A clock reading below 2^53 is written to the file, and read back, as
    it is. *)
Lemma reparse_clock n :
  (Z.of_nat n < 2 ^ 53)%Z ->
  reparse_number (Num.of_nat n) = VNumber (Num.of_nat n).
Proof.
  intro Hn. unfold Num.of_nat, Num.of_Z, binary_normalize.
  destruct (Z.of_nat n) as [|p|p] eqn:Hz; [reflexivity| |lia].
  destruct (binary_round_small p) as (m & e & Hr).
  { apply digits2_pos_bound; lia. }
  unfold Num.prec, Num.emax. now rewrite Hr.
Qed.

(** ** Records through a write *)

Lemma reparse_object props :
  reparse (VObject props) = VObject (reparse_fields props).
Proof.
  reflexivity.
Qed.

Lemma lookup_reparse_fields name props x :
  lookup name props = Some x -> x <> VUndefined ->
  lookup name (reparse_fields props) = Some (reparse x).
Proof.
  intros Hl Hx. induction props as [|[k y] rest IH]; [discriminate|].
  cbn [lookup] in Hl. cbn [reparse_fields].
  destruct (String.eqb k name) eqn:Hk.
  - injection Hl as ->. destruct x; try (now elim Hx); cbn [lookup]; now rewrite Hk.
  - destruct y; cbn [lookup]; rewrite ?Hk; auto.
Qed.

Lemma lookup_reparse_fields_none name props :
  lookup name props = None -> lookup name (reparse_fields props) = None.
Proof.
  induction props as [|[k y] rest IH]; [reflexivity|].
  cbn [lookup reparse_fields].
  destruct (String.eqb k name) eqn:Hk; [discriminate|].
  intro Hl. destruct y; cbn [lookup]; rewrite ?Hk; auto.
Qed.

Lemma reparse_stable_map data :
  reparse (VArray data) = VArray data -> map reparse_elem data = data.
Proof. intro H. now injection H. Qed.

Lemma file_after_post w data props :
  file w = Parsed (VArray data) ->
  reparse (VArray data) = VArray data ->
  snd (post_item_route (VObject props) Written w)
  = set_file
      (Parsed (VArray (data ++ [VObject (reparse_fields
                                           (set_prop "id" (VNumber (Num.of_nat (now w)))
                                                     props))])))
      w.
Proof.
  intros Hf Hst.
  unfold post_item_route, post_item_begin, post_item_end, readData, Date_now,
    writeData. unfold_M. rewrite Hf. cbn [assign_id array_push fst snd].
  f_equal. f_equal.
  change (reparse (VArray (data ++ [?i]))) with (VArray (map reparse_elem (data ++ [i]))).
  rewrite map_app, (reparse_stable_map _ Hst). cbn [map reparse_elem].
  now rewrite reparse_object.
Qed.

(** X16.  A record that is posted can be fetched under the id it was given:
    when the store is an array as [JSON.stringify] writes it, none of its
    records has the clock's reading as id, and the path's id reads as that
    number, [GET /api/items/:id] after the [POST] answers with the record
    as it was written. *)
Theorem post_then_get_round_trip :
  forall (w : world) (data : list value) (props : list (string * value))
         (id : string),
    file w = Parsed (VArray data) ->
    reparse (VArray data) = VArray data ->
    (Z.of_nat (now w) < 2 ^ 53)%Z ->
    Num.strict_eq (Num.of_nat (now w)) (parseInt id) = true ->
    Forall (fun x => present x = true /\ id_is (parseInt id) x = false) data ->
    let w1 := snd (post_item_route (VObject props) Written w) in
    get_item_route' id w1
    = (Ok (Json 200 (reparse (VObject (set_prop "id" (VNumber (Num.of_nat (now w)))
                                                props)))),
       w1).
Proof.
  intros w data props id Hf Hst Hclock Heq Hfresh w1.
  unfold w1. rewrite (file_after_post _ _ _ Hf Hst). rewrite reparse_object.
  apply get_item_returns_first_match_at with (pre := data) (post := []).
  - reflexivity.
  - exact Hfresh.
  - unfold id_is. cbn [get_prop].
    rewrite (lookup_reparse_fields "id" _ (VNumber (Num.of_nat (now w)))).
    + cbn [reparse]. rewrite (reparse_clock _ Hclock). exact Heq.
    + apply lookup_set_prop.
    + discriminate.
Qed.

(** ** From a write of the items route to the stats cache *)

Lemma run_changes k :
  forall w,
    trigger_state w -> 1 <= watchers w -> 1 <= k ->
    restarted_from w (run' (repeat (FsEvent "change") k) w).
Proof.
  induction k as [|k IH]; intros w Hinv Hw Hk; [lia|].
  cbn [repeat]. rewrite run_cons.
  assert (H1 : restarted_from w (exec' (FsEvent "change") w)).
  { unfold exec, step. now apply notify_watchers_change. }
  destruct k as [|k]; [exact H1|].
  eapply restarted_from_trans; [exact H1|].
  apply IH; [eapply restarted_trigger_state; exact H1| |lia].
  destruct H1 as (_ & _ & _ & -> & _). exact Hw.
Qed.

Lemma numeric_prices_app items1 items2 ps1 ps2 :
  numeric_prices items1 = Some ps1 -> numeric_prices items2 = Some ps2 ->
  numeric_prices (items1 ++ items2) = Some (ps1 ++ ps2).
Proof.
  revert ps1; induction items1 as [|x xs IH]; intros ps1 H1 H2; cbn in H1 |- *.
  - now injection H1 as <-.
  - destruct (price_of x) as [p|]; [|discriminate].
    destruct (numeric_prices xs) as [ps|]; [|discriminate].
    injection H1 as <-. now rewrite (IH ps eq_refl H2).
Qed.

Lemma numeric_prices_Forall items ps :
  numeric_prices items = Some ps ->
  Forall (fun item => lacks_price item = true \/ has_number_price item = true) items.
Proof.
  revert ps; induction items as [|x xs IH]; intros ps H; [constructor|].
  cbn in H. destruct (price_of x) as [p|] eqn:Hp; [|discriminate].
  destruct (numeric_prices xs) as [ps'|]; [|discriminate].
  constructor; [|now apply (IH ps')].
  right. unfold has_number_price. now rewrite Hp.
Qed.

(** Records with a Number as price or with no price, one of them with
    none: the average is [NaN]. *)
Lemma calculateStats_absent_price w items :
  file w = Parsed (VArray items) ->
  Forall (fun item => lacks_price item = true \/ has_number_price item = true) items ->
  Exists (fun item => lacks_price item = true) items ->
  fst (calculateStats' w) = Ok (mkStats (List.length items) Num.NaN).
Proof.
  intros Hf Hall Hex.
  destruct items as [|x xs]; [inversion Hex|].
  destruct (reduce_absent_prices _ Hall Num.zero) as (prices & r & Hmap & Hred & Hr).
  rewrite (Hr (or_intror Hex)) in Hred.
  rewrite (calculateStats_array _ _ _ Hf).
  unfold mean. unfold_M. rewrite Hmap, Hred. reflexivity.
Qed.

(** ** Two records with one id *)


Lemma reparse_elem_defined x : reparse_elem x <> VUndefined.
Proof.
  destruct x; try discriminate. cbn. destruct n; discriminate.
Qed.







(* ===================================================================== *)
(** * Properties of the runs, one [await] at a time *)
(* ===================================================================== *)

#[local] Abbreviation calculateStats_rest' :=
  (calculateStats_rest NumberToString StringToNumber).
#[local] Abbreviation recompute_rest' :=
  (recompute_rest NumberToString StringToNumber).
#[local] Abbreviation initStatsCache_rest' :=
  (initStatsCache_rest NumberToString StringToNumber).
#[local] Abbreviation async_step' := (async_step NumberToString StringToNumber).
#[local] Abbreviation async_run' := (async_run NumberToString StringToNumber).
#[local] Abbreviation settle' := (settle NumberToString StringToNumber).

(** The two halves, run one after the other on a file that does not
    change, are [calculateStats]. *)
Lemma calculateStats_call_then_rest w :
  calculateStats' w = calculateStats_rest' (file w) (snd (calculateStats_call w)).
Proof.
  unfold calculateStats, calculateStats_rest, calculateStats_call.
  unfold_M. proj_world. now destruct (file w).
Qed.

(** What follows the [await] changes nothing but the trace, reads nothing,
    and returns what [calculateStats] returns on a file that holds what the
    read found. *)
Lemma calculateStats_rest_effect f w :
  exists tr,
    calculateStats_rest' f w
    = (fst (calculateStats' (boot f)), set_trace (trace w ++ tr) w) /\
    aggregator_runs tr = [].
Proof.
  unfold calculateStats, calculateStats_rest, mean. unfold_M. proj_world.
  cbn [boot file].
  destruct f as [e|e|items]; proj_world.
  3: repeat (break_match; proj_world).
  all: try (eexists; rewrite <- ?app_assoc; cbn [app];
            split; [reflexivity|reflexivity]).
  all: exists []; rewrite app_nil_r; now destruct w.
Qed.

Lemma recompute_rest_effect f w :
  exists tr,
    recompute_rest' f w
    = (Ok tt,
       set_statsCache
         (match fst (calculateStats' (boot f)) with
          | Ok s => Some s
          | Err _ => statsCache w
          end)
         (set_trace (trace w ++ tr) w)) /\
    aggregator_runs tr = [].
Proof.
  destruct (calculateStats_rest_effect f w) as (tr & Heq & Hruns).
  unfold recompute_rest. unfold_M. rewrite Heq.
  destruct (fst (calculateStats' (boot f))) as [s|e]; proj_world.
  - exists (tr ++ [(now w, LogStats "Stats cache updated:" s)]).
    rewrite <- app_assoc, aggregator_runs_app, Hruns. split; reflexivity.
  - exists (tr ++ [(now w, LogError "Error updating stats cache:" e)]).
    rewrite <- app_assoc, aggregator_runs_app, Hruns. split; reflexivity.
Qed.

Lemma initStatsCache_rest_effect f w :
  exists tr k,
    snd (initStatsCache_rest' f w)
    = set_watchers k
        (set_statsCache
           (match fst (calculateStats' (boot f)) with
            | Ok s => Some s
            | Err _ => statsCache w
            end)
           (set_trace (trace w ++ tr) w)).
Proof.
  destruct (calculateStats_rest_effect f w) as (tr & Heq & _).
  unfold initStatsCache_rest. unfold_M. rewrite Heq.
  destruct (fst (calculateStats' (boot f))) as [s|e]; proj_world.
  - exists (tr ++ [(now w, LogStats "Stats cache initialized:" s);
                   (now w, WatchFile);
                   (now w, LogPath "File watcher initialized for:")]),
           (S (watchers w)).
    rewrite <- !app_assoc. reflexivity.
  - exists (tr ++ [(now w, LogError "Error initializing stats cache:" e)]),
           (watchers w).
    rewrite <- !app_assoc. reflexivity.
Qed.

Lemma async_run_cons ev evs p :
  async_run' (ev :: evs) p = async_run' evs (async_step' ev p).
Proof. reflexivity. Qed.

Lemma async_run_app evs1 evs2 p :
  async_run' (evs1 ++ evs2) p = async_run' evs2 (async_run' evs1 p).
Proof. unfold async_run. apply fold_left_app. Qed.

(** ** The trigger is Idle or PendingRecompute here too *)

Lemma async_elapse_idle d p :
  timers (main p) = [] ->
  async_elapse d p = mkProcess (set_now (now (main p) + d) (main p)) (flights p).
Proof. intro Ht. unfold async_elapse. rewrite Ht. reflexivity. Qed.

Lemma async_elapse_not_due d p id due :
  timers (main p) = [(id, due)] -> now (main p) + d < due ->
  async_elapse d p = mkProcess (set_now (now (main p) + d) (main p)) (flights p).
Proof.
  intros Ht Hlt. unfold async_elapse. rewrite Ht. cbn [List.length start_due].
  rewrite Ht. cbn [earliest snd].
  destruct (Nat.leb_spec due (now (main p) + d)); [lia|reflexivity].
Qed.

Lemma async_elapse_due d p id due :
  timers (main p) = [(id, due)] -> due <= now (main p) + d ->
  async_elapse d p
  = mkProcess
      (set_now (now (main p) + d)
         (snd (calculateStats_call (set_now due (set_timers [] (main p))))))
      (flights p ++ [mkFlight ByTimeout None]).
Proof.
  intros Ht Hle. unfold async_elapse. rewrite Ht. cbn [List.length start_due].
  rewrite Ht. cbn [earliest snd].
  destruct (Nat.leb_spec due (now (main p) + d)); [|lia].
  unfold start_timeout. rewrite Ht. cbn [filter fst snd]. rewrite Nat.eqb_refl.
  reflexivity.
Qed.

Lemma async_step_trigger_state ev p :
  trigger_state (main p) -> trigger_state (main (async_step' ev p)).
Proof.
  intro Hinv. destruct ev as [|eventType|f|d| |i|i]; cbn [async_step main].
  - exact Hinv.
  - now apply exec_trigger_state.
  - now apply exec_trigger_state.
  - destruct Hinv as [Ht|(id & due & Ht & Hd & Hlt)].
    + rewrite (async_elapse_idle _ _ Ht). now left.
    + destruct (Nat.le_gt_cases due (now (main p) + d)) as [Hle|Hgt].
      * rewrite (async_elapse_due _ _ _ _ Ht Hle). now left.
      * rewrite (async_elapse_not_due _ _ _ _ Ht Hgt). right.
        exists id, due. now repeat split.
  - now apply exec_trigger_state.
  - exact Hinv.
  - unfold settle. destruct (nth_error (flights p) i) as [fl|]; [|exact Hinv].
    cbn [main]. destruct (awaited_by fl).
    + destruct (initStatsCache_rest_effect
                  (match content fl with Some f => f | None => file (main p) end)
                  (main p)) as (tr & k & ->).
      exact Hinv.
    + destruct (recompute_rest_effect
                  (match content fl with Some f => f | None => file (main p) end)
                  (main p)) as (tr & -> & _).
      exact Hinv.
Qed.

Lemma async_run_trigger_state evs :
  forall p, trigger_state (main p) -> trigger_state (main (async_run' evs p)).
Proof.
  induction evs as [|ev evs IH]; intros p Hinv; [exact Hinv|].
  rewrite async_run_cons. apply IH. now apply async_step_trigger_state.
Qed.

(** ** A burst, and the run it ends in *)

Lemma async_run_mutation f p :
  async_run' (async_mutation f) p
  = mkProcess (run' (mutation f) (main p)) (flights p).
Proof. reflexivity. Qed.

Lemma async_run_burst_rest rest :
  forall p,
    restarted_from (main p) (main p) -> 1 <= watchers (main p) ->
    Forall (fun gf => fst gf < debounce_delay) rest ->
    async_run' (flat_map (fun gf => AElapse (fst gf) :: async_mutation (snd gf)) rest) p
    = mkProcess
        (run' (flat_map (fun gf => Elapse (fst gf) :: mutation (snd gf)) rest) (main p))
        (flights p).
Proof.
  induction rest as [|[gap f] rest IH]; intros p Hre Hw Hgaps.
  - now destruct p.
  - inversion Hgaps as [|? ? Hgap Hrest]; subst. cbn [fst snd] in Hgap.
    cbn [flat_map fst snd]. rewrite <- !app_comm_cons.
    rewrite async_run_cons, async_run_app, run_cons, run_app.
    destruct Hre as ((h & Ht & Hd) & _).
    assert (Hinv : trigger_state (main p)).
    { right. exists h, (now (main p) + debounce_delay).
      repeat split; auto. unfold debounce_delay. lia. }
    assert (He : exec' (Elapse gap) (main p) = set_now (now (main p) + gap) (main p)).
    { unfold exec, step. rewrite (elapse_not_due gap _ h _ Ht); [reflexivity|lia]. }
    assert (Ha : async_step' (AElapse gap) p
                 = mkProcess (exec' (Elapse gap) (main p)) (flights p)).
    { cbn [async_step]. rewrite (async_elapse_not_due gap p h _ Ht) by lia.
      now rewrite He. }
    rewrite Ha, async_run_mutation. cbn [main flights]. rewrite He.
    assert (Hinv1 : trigger_state (set_now (now (main p) + gap) (main p))).
    { right. exists h, (now (main p) + debounce_delay). proj_world.
      repeat split; auto. lia. }
    pose proof (run_mutation f _ Hinv1 Hw) as Hre1.
    set (w1 := run' (mutation f) (set_now (now (main p) + gap) (main p))) in *.
    destruct Hre1 as (Hp1 & Hf1 & Hc1 & Hw1 & Hn1 & Ht1). proj_world_all.
    rewrite (IH (mkProcess w1 (flights p))); cbn [main flights].
    + reflexivity.
    + unfold restarted_from. repeat split; auto.
      destruct Hp1 as (h1 & Hp1 & Hd1). exists h1. now rewrite Hn1.
    + lia.
    + exact Hrest.
Qed.

(** With no run in flight and one timeout pending: once it has become due
    and the run it starts has settled, the cache holds what
    [calculateStats] makes of the file, unless that fails. *)
Lemma async_fire_and_settle d p h due :
  flights p = [] -> timers (main p) = [(h, due)] -> due <= now (main p) + d ->
  let p' := async_run' [AElapse d; ASettle 0] p in
  flights p' = [] /\
  file (main p') = file (main p) /\
  statsCache (main p')
  = match fst (calculateStats' (boot (file (main p)))) with
    | Ok s => Some s
    | Err _ => statsCache (main p)
    end.
Proof.
  intros Hfl Ht Hle. cbn zeta. rewrite !async_run_cons.
  change (async_run' [] ?x) with x. cbn [async_step].
  rewrite (async_elapse_due d p h due Ht Hle), Hfl.
  unfold settle. cbn [app nth_error flights main content awaited_by].
  unfold calculateStats_call, emit. proj_world.
  match goal with |- context [recompute_rest' ?f ?w] =>
    destruct (recompute_rest_effect f w) as (tr & -> & _) end.
  proj_world. repeat split.
Qed.

(** X3.  When no run of the Aggregator is in flight as a burst begins,
    then once the delay has passed after the burst and the run that the
    timeout starts has settled, the cache holds the Stats of the content
    written last in the burst, or, when the Aggregator fails on that
    content, what it held before the burst. *)
Theorem cache_after_burst_is_latest :
  forall (f0 : file_state) (evs : list async_event)
         (first : file_state) (rest : list (nat * file_state)) (d : nat),
    let p := async_run' evs (async_boot f0) in
    flights p = [] ->
    1 <= watchers (main p) ->
    Forall (fun gf => fst gf < debounce_delay) rest ->
    debounce_delay <= d ->
    let latest := last (map snd rest) first in
    let p2 := async_run' (async_burst first rest ++ [AElapse d; ASettle 0]) p in
    flights p2 = [] /\
    file (main p2) = latest /\
    (forall s, fst (calculateStats' (boot latest)) = Ok s ->
               statsCache (main p2) = Some s) /\
    (forall e, fst (calculateStats' (boot latest)) = Err e ->
               statsCache (main p2) = statsCache (main p)).
Proof.
  intros f0 evs first rest d p Hfl Hw Hgaps Hd latest p2.
  assert (Hinv : trigger_state (main p))
    by (apply async_run_trigger_state, boot_trigger_state).
  pose proof (run_mutation first (main p) Hinv Hw) as Hre.
  set (wa := run' (mutation first) (main p)) in *.
  destruct Hre as (Hp & Hf & Hc & Hwa & Hn & Ht). proj_world_all.
  assert (Hra : restarted_from wa wa).
  { unfold restarted_from. repeat split; auto.
    destruct Hp as (h & Hp & Hdt). exists h. now rewrite Hn. }
  destruct (run_burst_rest rest wa Hra ltac:(lia) Hgaps)
    as ((h & Ht1) & Hinv1 & Hn1 & Htr1 & Hc1).
  set (w1 := run' (flat_map (fun gf => Elapse (fst gf) :: mutation (snd gf)) rest) wa)
    in *.
  assert (Hp1 : async_run' (async_burst first rest) p = mkProcess w1 (flights p)).
  { unfold async_burst. rewrite async_run_app, async_run_mutation. fold wa.
    now rewrite (async_run_burst_rest rest (mkProcess wa (flights p)) Hra
                   ltac:(cbn [main]; lia) Hgaps). }
  assert (Hfile : file w1 = latest).
  { unfold w1. rewrite file_run, Hf. apply current_store_burst_rest. }
  unfold p2. rewrite async_run_app, Hp1.
  destruct (async_fire_and_settle d (mkProcess w1 (flights p)) h
              (now w1 + debounce_delay) Hfl Ht1 ltac:(cbn [main]; lia))
    as (Hfl2 & Hf2 & Hc2).
  cbn [main] in Hf2, Hc2. rewrite Hfile in Hc2, Hf2.
  split; [exact Hfl2|]. split; [exact Hf2|].
  rewrite Hc2. destruct (fst (calculateStats' (boot latest))) as [s|e].
  - split; [now intros ? [= <-]|discriminate].
  - split; [discriminate|]. intros _ _. congruence.
Qed.

(** ** From a write of the items route to the stats cache *)

Lemma async_run_changes k p :
  async_run' (repeat (AFsEvent "change") k) p
  = mkProcess (run' (repeat (FsEvent "change") k) (main p)) (flights p).
Proof.
  revert p; induction k as [|k IH]; intro p; [now destruct p|].
  cbn [repeat]. rewrite async_run_cons, run_cons, IH. reflexivity.
Qed.

(** A lone [POST] that succeeds, with no run in flight, then one or more
    [change] notifications, the delay, and the settling of the run: the
    cache holds what [calculateStats] makes of the file as written. *)
Lemma stats_after_post p data props k d :
  trigger_state (main p) -> flights p = [] -> 1 <= watchers (main p) ->
  file (main p) = Parsed (VArray data) ->
  reparse (VArray data) = VArray data ->
  1 <= k -> debounce_delay <= d ->
  let written :=
    Parsed (VArray (data ++ [VObject (reparse_fields
                                        (set_prop "id"
                                           (VNumber (Num.of_nat (now (main p))))
                                           props))])) in
  let p1 := mkProcess (snd (post_item_route (VObject props) Written (main p)))
                      (flights p) in
  let p2 := async_run' (repeat (AFsEvent "change") k ++ [AElapse d; ASettle 0]) p1 in
  statsCache (main p2)
  = match fst (calculateStats' (boot written)) with
    | Ok s => Some s
    | Err _ => statsCache (main p)
    end.
Proof.
  intros Hinv Hfl Hw Hf Hst Hk Hd written p1 p2.
  unfold p2, p1. rewrite (file_after_post _ _ _ Hf Hst). fold written.
  rewrite async_run_app, async_run_changes. cbn [main flights].
  pose proof (run_changes k (set_file written (main p)) Hinv Hw Hk) as Hre.
  set (w1 := run' (repeat (FsEvent "change") k) (set_file written (main p))) in *.
  destruct Hre as ((h & Ht & _) & Hf1 & Hc1 & _ & Hn1 & _). proj_world_all.
  destruct (async_fire_and_settle d (mkProcess w1 (flights p)) h
              (now (main p) + debounce_delay) Hfl Ht ltac:(cbn [main]; lia))
    as (_ & _ & Hc2).
  cbn [main] in Hc2. rewrite Hc2, Hf1, Hc1. reflexivity.
Qed.

(** X17.  A record posted with a price shows in the stats.  On a running
    server with no run of the Aggregator in flight, whose store is an array
    as [JSON.stringify] writes it, of N records that all have a Number as
    price: after a lone [POST] of an object whose price is a finite Number
    other than [-0], one or more [change] notifications, the delay, and the
    settling of the run that the timeout starts, the cache holds
    [total = N + 1] and the floating-point mean of the old prices and the
    new one. *)
Theorem posted_item_reaches_stats :
  forall (f0 : file_state) (evs : list async_event) (data : list value)
         (ps : list number) (props : list (string * value)) (price : number)
         (k d : nat),
    let p := async_run' evs (async_boot f0) in
    flights p = [] ->
    1 <= watchers (main p) ->
    file (main p) = Parsed (VArray data) ->
    reparse (VArray data) = VArray data ->
    numeric_prices data = Some ps ->
    lookup "price" props = Some (VNumber price) ->
    reparse_number price = VNumber price ->
    1 <= k -> debounce_delay <= d ->
    let p1 := mkProcess (snd (post_item_route (VObject props) Written (main p)))
                        (flights p) in
    let p2 := async_run' (repeat (AFsEvent "change") k ++ [AElapse d; ASettle 0]) p1 in
    statsCache (main p2)
    = Some (mkStats (S (List.length data)) (arithmetic_mean (ps ++ [price]))).
Proof.
  intros f0 evs data ps props price k d p Hfl Hw Hf Hst Hps Hprice Hfin Hk Hd p1 p2.
  assert (Hinv : trigger_state (main p))
    by (apply async_run_trigger_state, boot_trigger_state).
  unfold p2, p1. rewrite (stats_after_post p data props k d); try assumption.
  set (item := VObject (reparse_fields (set_prop "id" _ props))).
  assert (Hitem : numeric_prices [item] = Some [price]).
  { cbn [numeric_prices price_of item].
    rewrite (lookup_reparse_fields "price" _ (VNumber price)).
    - cbn [reparse]. now rewrite Hfin.
    - now rewrite lookup_set_prop_other.
    - discriminate. }
  pose proof (numeric_prices_app _ _ _ _ Hps Hitem) as Hall.
  destruct data as [|x xs].
  - cbn [app] in *.
    rewrite (calculateStats_numeric (boot (Parsed (VArray [item]))) item [] _
               eq_refl Hall).
    reflexivity.
  - cbn [app] in *.
    rewrite (calculateStats_numeric (boot (Parsed (VArray (x :: xs ++ [item]))))
               x (xs ++ [item]) _ eq_refl Hall).
    cbn [fst List.length]. rewrite length_app. cbn [List.length].
    now rewrite Nat.add_1_r.
Qed.

(** X18.  The body of a [POST] is not validated.  On a running server with
    no run of the Aggregator in flight, whose store is an array as
    [JSON.stringify] writes it, of N records that all have a Number as
    price: after a lone [POST] of an object without a [price], one or more
    [change] notifications, the delay, and the settling of the run that
    the timeout starts, the cache holds [total = N + 1] and
    [averagePrice = NaN]. *)
Theorem posted_item_without_price_makes_average_NaN :
  forall (f0 : file_state) (evs : list async_event) (data : list value)
         (ps : list number) (props : list (string * value)) (k d : nat),
    let p := async_run' evs (async_boot f0) in
    flights p = [] ->
    1 <= watchers (main p) ->
    file (main p) = Parsed (VArray data) ->
    reparse (VArray data) = VArray data ->
    numeric_prices data = Some ps ->
    lookup "price" props = None ->
    1 <= k -> debounce_delay <= d ->
    let p1 := mkProcess (snd (post_item_route (VObject props) Written (main p)))
                        (flights p) in
    let p2 := async_run' (repeat (AFsEvent "change") k ++ [AElapse d; ASettle 0]) p1 in
    statsCache (main p2) = Some (mkStats (S (List.length data)) Num.NaN).
Proof.
  intros f0 evs data ps props k d p Hfl Hw Hf Hst Hps Hprice Hk Hd p1 p2.
  assert (Hinv : trigger_state (main p))
    by (apply async_run_trigger_state, boot_trigger_state).
  unfold p2, p1. rewrite (stats_after_post p data props k d); try assumption.
  set (item := VObject (reparse_fields (set_prop "id" _ props))).
  assert (Hlack : lacks_price item = true).
  { cbn [lacks_price item]. rewrite lookup_reparse_fields_none; [reflexivity|].
    now rewrite lookup_set_prop_other. }
  rewrite (calculateStats_absent_price (boot (Parsed (VArray (data ++ [item]))))
             (data ++ [item]) eq_refl).
  - rewrite length_app. cbn [List.length]. now rewrite Nat.add_1_r.
  - apply Forall_app. split; [now apply (numeric_prices_Forall _ ps)|].
    constructor; [now left|constructor].
  - apply Exists_app. right. now constructor.
Qed.

End Properties.

(* ===================================================================== *)
(** * The properties on the sample data *)
(* ===================================================================== *)

(** The scenario [[{price:10},{price:20},{price:30}]]: the mean is 20. *)
Example mean_of_three_records :
  arithmetic_mean [Num.of_Z 10; Num.of_Z 20; Num.of_Z 30] = Num.of_Z 20.
Proof. vm_compute. reflexivity. Qed.

(** The mean is computed in floating point: for 0.1 and 0.2 it is
    0.15000000000000002, one unit in the last place above the double
    nearest to 0.15. *)
Example mean_in_floating_point :
  arithmetic_mean [S754_finite false 7205759403792794 (-56);
                   S754_finite false 7205759403792794 (-55)]
  = S754_finite false 5404319552844596 (-55).
Proof. vm_compute. reflexivity. Qed.

Lemma calculateStats_total_and_mean_witness :
  exists s,
    fst (calculateStats sample_NumberToString sample_StringToNumber
           (boot (Parsed (VArray three_records)))) = Ok s /\
    total s = 3 /\
    averagePrice s = arithmetic_mean [Num.of_Z 10; Num.of_Z 20; Num.of_Z 30].
Proof.
  apply (calculateStats_total_and_mean
           sample_NumberToString sample_StringToNumber
           (boot (Parsed (VArray three_records))) three_records
           [Num.of_Z 10; Num.of_Z 20; Num.of_Z 30]).
  - reflexivity.
  - simpl. lia.
  - reflexivity.
Defined.

Lemma calculateStats_empty_record_set_witness :
  calculateStats sample_NumberToString sample_StringToNumber (boot empty_store)
  = (Ok (mkStats 0 Num.zero),
     set_trace (trace (boot empty_store) ++ [(now (boot empty_store), ReadFile)])
               (boot empty_store)).
Proof.
  apply (calculateStats_empty_record_set
           sample_NumberToString sample_StringToNumber (boot empty_store)).
  reflexivity.
Defined.

(** C3 as stated fails: a record without a price is not an error. *)
Lemma missing_price_is_not_an_error :
  price_of priceless = None /\
  fst (calculateStats sample_NumberToString sample_StringToNumber
         (boot (Parsed (VArray [priceless]))))
  = Ok (mkStats 1 Num.NaN).
Proof. split; reflexivity. Qed.

Lemma calculateStats_failures_witness :
  fst (calculateStats sample_NumberToString sample_StringToNumber (boot broken_store))
  = Err SyntaxError /\
  (exists msg,
      fst (calculateStats sample_NumberToString sample_StringToNumber
             (boot (Parsed (VArray [record 10; VNull]))))
      = Err (TypeError msg)) /\
  fst (calculateStats sample_NumberToString sample_StringToNumber
         (boot (Parsed (VArray [record 10; priceless]))))
  = Ok (mkStats 2 Num.NaN).
Proof.
  split; [|split].
  - apply (proj1 (calculateStats_failures
                    sample_NumberToString sample_StringToNumber (boot broken_store))).
    right. reflexivity.
  - destruct (proj1 (proj2 (calculateStats_failures
                              sample_NumberToString sample_StringToNumber
                              (boot (Parsed (VArray [record 10; VNull])))))
                    [record 10; VNull] eq_refl (or_intror (or_introl eq_refl)))
      as [msg [H _]].
    exists msg. exact H.
  - apply (proj2 (proj2 (calculateStats_failures
                           sample_NumberToString sample_StringToNumber
                           (boot (Parsed (VArray [record 10; priceless])))))
                 [record 10; priceless]).
    + reflexivity.
    + constructor; [right; reflexivity|].
      constructor; [left; reflexivity|constructor].
    + apply Exists_cons_tl, Exists_cons_hd. reflexivity.
Defined.

(** The scenario of five notifications 50 ms apart: one recompute, 300 ms
    after the fifth. *)
Lemma debounced_burst_runs_once_witness :
  let w := run sample_NumberToString sample_StringToNumber [Startup] (boot good_store) in
  let w1 := run sample_NumberToString sample_StringToNumber (burst empty_store four_more) w in
  let w2 := run sample_NumberToString sample_StringToNumber [Elapse 300] w1 in
  now w1 = now w + list_sum (map fst four_more) /\
  aggregator_runs (trace w1) = aggregator_runs (trace w) /\
  (exists h, timers w1 = [(h, now w1 + debounce_delay)]) /\
  aggregator_runs (trace w2) = aggregator_runs (trace w) ++ [now w1 + debounce_delay] /\
  timers w2 = [].
Proof.
  apply (debounced_burst_runs_once
           sample_NumberToString sample_StringToNumber
           good_store [Startup] empty_store four_more 300).
  - vm_compute. lia.
  - repeat constructor; vm_compute; lia.
  - vm_compute. lia.
Defined.

Example five_notifications_one_recompute :
  aggregator_runs
    (trace (run sample_NumberToString sample_StringToNumber
              (burst empty_store four_more ++ [Elapse 300]) serving))
  = [0; 500].
Proof. vm_compute. reflexivity. Qed.

Lemma failed_recompute_keeps_cache_witness :
  fst (step sample_NumberToString sample_StringToNumber (Elapse 300)
         pending_on_broken_store) = Ok tt /\
  statsCache (exec sample_NumberToString sample_StringToNumber (Elapse 300)
                pending_on_broken_store)
  = statsCache pending_on_broken_store /\
  forall n : nat,
    fst (getStats (run sample_NumberToString sample_StringToNumber
                     (repeat HttpGetStats n)
                     (exec sample_NumberToString sample_StringToNumber (Elapse 300)
                        pending_on_broken_store)))
    = Ok (statsCache pending_on_broken_store).
Proof.
  apply (failed_recompute_keeps_cache
           sample_NumberToString sample_StringToNumber
           pending_on_broken_store SyntaxError 300).
  vm_compute. reflexivity.
Defined.

(** On that world the recompute does run, at 300, and fails; the cache
    keeps the Stats of the start-up. *)
Example failed_recompute_is_logged :
  In (300, LogError "Error updating stats cache:" SyntaxError)
     (trace (exec sample_NumberToString sample_StringToNumber (Elapse 300)
               pending_on_broken_store)) /\
  statsCache pending_on_broken_store = Some (mkStats 3 (Num.of_Z 20)).
Proof. vm_compute. intuition. Qed.

Lemma initStatsCache_populates_or_rethrows_witness :
  (fst (initStatsCache sample_NumberToString sample_StringToNumber (boot good_store))
   = Ok tt /\
   statsCache (snd (initStatsCache sample_NumberToString sample_StringToNumber
                      (boot good_store)))
   = Some (mkStats 3 (Num.of_Z 20)) /\
   watchers (snd (initStatsCache sample_NumberToString sample_StringToNumber
                    (boot good_store))) = 1) /\
  (fst (initStatsCache sample_NumberToString sample_StringToNumber (boot missing_store))
   = Err (SystemError "ENOENT") /\
   statsCache (snd (initStatsCache sample_NumberToString sample_StringToNumber
                      (boot missing_store))) = None /\
   watchers (snd (initStatsCache sample_NumberToString sample_StringToNumber
                    (boot missing_store))) = 0).
Proof.
  split.
  - apply (proj1 (proj2 (proj2 (proj2 (initStatsCache_populates_or_rethrows
             sample_NumberToString sample_StringToNumber (boot good_store)))))).
    vm_compute. reflexivity.
  - apply (proj2 (proj2 (proj2 (proj2 (initStatsCache_populates_or_rethrows
             sample_NumberToString sample_StringToNumber (boot missing_store)))))).
    vm_compute. reflexivity.
Defined.

Lemma read_before_populate_is_503_witness :
  get_stats_route (boot missing_store)
  = (Ok (Next (HttpError "Stats not initialized" 503)), boot missing_store) /\
  step sample_NumberToString sample_StringToNumber HttpGetStats (boot missing_store)
  = (Ok tt,
     set_trace
       (trace (boot missing_store) ++
        [(now (boot missing_store),
          Respond (Next (HttpError "Stats not initialized" 503)))])
       (boot missing_store)).
Proof.
  apply (read_before_populate_is_503
           sample_NumberToString sample_StringToNumber (boot missing_store)).
  reflexivity.
Defined.





Lemma rename_is_ignored_witness :
  step sample_NumberToString sample_StringToNumber (FsEvent "rename") serving
  = (Ok tt, serving).
Proof.
  apply (rename_is_ignored sample_NumberToString sample_StringToNumber serving "rename").
  apply String.eqb_neq. reflexivity.
Defined.

Lemma spaced_notifications_run_each_witness :
  let w := run sample_NumberToString sample_StringToNumber [Startup] (boot good_store) in
  let w' := run sample_NumberToString sample_StringToNumber
                (spaced [(empty_store, 300); (good_store, 450)]) w in
  List.length (aggregator_runs (trace w'))
  = List.length (aggregator_runs (trace w)) + 2 /\
  timers w' = [].
Proof.
  apply (spaced_notifications_run_each
           sample_NumberToString sample_StringToNumber
           good_store [Startup] [(empty_store, 300); (good_store, 450)]).
  - vm_compute. lia.
  - repeat constructor; vm_compute; lia.
  - intro H. inversion H.
Defined.

Lemma reads_see_503_or_computed_stats_witness :
  ResJson (mkStats 3 (Num.of_Z 20))
  = Next (HttpError "Stats not initialized" 503) \/
  exists s items,
    ResJson (mkStats 3 (Num.of_Z 20)) = ResJson s /\
    In (Parsed items) (store_history good_store [Startup; HttpGetStats]) /\
    fst (calculateStats sample_NumberToString sample_StringToNumber
           (boot (Parsed items))) = Ok s /\
    Stats_invariant items s.
Proof.
  apply (reads_see_503_or_computed_stats
           sample_NumberToString sample_StringToNumber
           good_store [Startup; HttpGetStats] 0).
  vm_compute. do 5 right. left. reflexivity.
Defined.

Lemma cache_never_reverts_to_null_witness :
  statsCache (run sample_NumberToString sample_StringToNumber
                [StoreWrite broken_store; FsEvent "change"; Elapse 300; Startup]
                serving) <> None.
Proof.
  apply (cache_never_reverts_to_null
           sample_NumberToString sample_StringToNumber
           [StoreWrite broken_store; FsEvent "change"; Elapse 300; Startup] serving).
  vm_compute. discriminate.
Defined.

Lemma calculateStats_non_array_store_witness :
  fst (calculateStats sample_NumberToString sample_StringToNumber
         (boot (Parsed (VObject [("length", VNumber (S754_zero true))]))))
  = Ok (mkStats 0 Num.zero) /\
  exists msg,
    fst (calculateStats sample_NumberToString sample_StringToNumber
           (boot (Parsed (VObject [("length", VString "0")]))))
    = Err (TypeError msg).
Proof.
  split.
  - apply (proj1 (calculateStats_non_array_store
                    sample_NumberToString sample_StringToNumber
                    (boot (Parsed (VObject [("length", VNumber (S754_zero true))])))
                    (VObject [("length", VNumber (S754_zero true))])
                    eq_refl
                    (fun elems H => eq_ind (VObject [("length", VNumber (S754_zero true))])
                                      (fun v => match v with VObject _ => True | _ => False end)
                                      I _ H))).
    right. exists [("length", VNumber (S754_zero true))], (S754_zero true).
    repeat split.
  - apply (proj2 (calculateStats_non_array_store
                    sample_NumberToString sample_StringToNumber
                    (boot (Parsed (VObject [("length", VString "0")])))
                    (VObject [("length", VString "0")])
                    eq_refl
                    (fun elems H => eq_ind (VObject [("length", VString "0")])
                                      (fun v => match v with VObject _ => True | _ => False end)
                                      I _ H))).
    intros [H|(props & n & H & Hl & _)]; [discriminate H|].
    injection H as <-. discriminate Hl.
Defined.

Lemma string_prices_are_concatenated_witness :
  fst (calculateStats sample_NumberToString sample_StringToNumber
         (boot (Parsed (VArray [VObject [("price", VString "5")];
                                VObject [("price", VString "7")]]))))
  = Ok (mkStats 2
          (Num.div
             (sample_StringToNumber
                (sample_NumberToString Num.zero
                 ++ fold_right String.append "" ["5"; "7"])%string)
             (Num.of_nat 2))).
Proof.
  apply (string_prices_are_concatenated
           sample_NumberToString sample_StringToNumber
           (boot (Parsed (VArray [VObject [("price", VString "5")];
                                  VObject [("price", VString "7")]])))
           [VObject [("price", VString "5")]; VObject [("price", VString "7")]]
           ["5"; "7"]).
  - reflexivity.
  - simpl. lia.
  - reflexivity.
Defined.

Lemma get_item_returns_first_match_witness :
  get_item_route sample_parseInt "2" serving_catalog
  = (Ok (Json 200 (item_with_id 2 "Headphones" 399)), serving_catalog).
Proof.
  apply (get_item_returns_first_match sample_parseInt serving_catalog "2"
           [item_with_id 1 "Laptop Pro" 2499] [item_with_id 3 "Chair" 799]
           (item_with_id 2 "Headphones" 399)).
  - reflexivity.
  - constructor; [split; vm_compute; reflexivity|constructor].
  - vm_compute. reflexivity.
Defined.

Lemma get_item_not_found_is_404_witness :
  get_item_route sample_parseInt "7" serving_catalog
  = (Ok (NextErr (HttpError "Item not found" 404)), serving_catalog).
Proof.
  apply (get_item_not_found_is_404 sample_parseInt serving_catalog "7" catalog).
  - reflexivity.
  - repeat (constructor; [split; vm_compute; reflexivity|]). constructor.
Defined.

Lemma get_item_unreadable_id_is_404_witness :
  get_item_route sample_parseInt "abc" serving_catalog
  = (Ok (NextErr (HttpError "Item not found" 404)), serving_catalog).
Proof.
  apply (get_item_unreadable_id_is_404 sample_parseInt serving_catalog "abc" catalog).
  - reflexivity.
  - vm_compute. reflexivity.
  - repeat (constructor; [reflexivity|]). constructor.
Defined.

Lemma get_item_null_record_is_an_error_witness :
  exists msg,
    get_item_route sample_parseInt "3"
      (boot (Parsed (VArray ([item_with_id 1 "Laptop Pro" 2499]
                             ++ VNull :: [item_with_id 3 "Chair" 799]))))
    = (Ok (NextErr (TypeError msg)),
       boot (Parsed (VArray ([item_with_id 1 "Laptop Pro" 2499]
                             ++ VNull :: [item_with_id 3 "Chair" 799])))).
Proof.
  apply (get_item_null_record_is_an_error sample_parseInt
           (boot (Parsed (VArray ([item_with_id 1 "Laptop Pro" 2499]
                                  ++ VNull :: [item_with_id 3 "Chair" 799]))))
           "3" [item_with_id 1 "Laptop Pro" 2499] [item_with_id 3 "Chair" 799]).
  - reflexivity.
  - constructor; [split; vm_compute; reflexivity|constructor].
Defined.


(** The id that the client sent, 1, is gone: the record has the clock's
    reading, 1700. *)
Example posted_id_is_the_clock :
  fst (post_item_route new_desk Written serving_catalog)
  = Ok (Json 201 (VObject [("id", VNumber (Num.of_Z 1700)); ("name", VString "Desk")])).
Proof. vm_compute. reflexivity. Qed.

Lemma post_item_failure_writes_nothing_witness :
  exists err,
    post_item_route new_lamp Written (boot broken_store)
    = (Ok (NextErr err), boot broken_store).
Proof.
  apply (post_item_failure_writes_nothing (boot broken_store) new_lamp Written).
  left. intros data H. discriminate H.
Defined.

Lemma post_then_get_round_trip_witness :
  let w1 := snd (post_item_route new_desk Written serving_catalog) in
  get_item_route sample_parseInt "1700" w1
  = (Ok (Json 200
           (reparse (VObject (set_prop "id"
                                (VNumber (Num.of_nat (now serving_catalog)))
                                [("id", VNumber (Num.of_Z 1));
                                 ("name", VString "Desk")])))),
     w1).
Proof.
  apply (post_then_get_round_trip sample_parseInt serving_catalog catalog
           [("id", VNumber (Num.of_Z 1)); ("name", VString "Desk")] "1700").
  - reflexivity.
  - vm_compute. reflexivity.
  - vm_compute. reflexivity.
  - vm_compute. reflexivity.
  - repeat (constructor; [split; vm_compute; reflexivity|]). constructor.
Defined.



(** The runs, one [await] at a time. *)

Lemma cache_after_burst_is_latest_witness :
  let p := async_run sample_NumberToString sample_StringToNumber
             [AStartup; ASettle 0; AStoreWrite empty_store; AFsEvent "change";
              AElapse 300; AReadLands 0; ASettle 0]
             (async_boot good_store) in
  let latest := last (map snd four_more) broken_store in
  let p2 := async_run sample_NumberToString sample_StringToNumber
              (async_burst broken_store four_more ++ [AElapse 300; ASettle 0]) p in
  flights p2 = [] /\
  file (main p2) = latest /\
  (forall s, fst (calculateStats sample_NumberToString sample_StringToNumber
                    (boot latest)) = Ok s -> statsCache (main p2) = Some s) /\
  (forall e, fst (calculateStats sample_NumberToString sample_StringToNumber
                    (boot latest)) = Err e ->
             statsCache (main p2) = statsCache (main p)).
Proof.
  apply (cache_after_burst_is_latest
           sample_NumberToString sample_StringToNumber
           good_store
           [AStartup; ASettle 0; AStoreWrite empty_store; AFsEvent "change";
            AElapse 300; AReadLands 0; ASettle 0]
           broken_store four_more 300).
  - vm_compute. reflexivity.
  - vm_compute. lia.
  - repeat constructor; vm_compute; lia.
  - vm_compute. lia.
Defined.

(** Why the burst must begin with no run in flight: a run that started
    before a burst, and whose read found the store of that time, can settle
    after the run of the burst and leave its older Stats in the cache. *)
Example older_run_settling_last_overwrites :
  let p := async_run sample_NumberToString sample_StringToNumber
             [AStartup; ASettle 0;
              AStoreWrite empty_store; AFsEvent "change"; AElapse 300;
              AReadLands 0;
              AStoreWrite good_store; AFsEvent "change"; AElapse 300;
              ASettle 1; ASettle 0]
             (async_boot good_store) in
  flights p = [] /\
  file (main p) = good_store /\
  statsCache (main p) = Some (mkStats 0 Num.zero).
Proof. vm_compute. repeat split. Qed.

Lemma posted_item_reaches_stats_witness :
  let p := async_run sample_NumberToString sample_StringToNumber
             [AStartup; ASettle 0; AElapse 1700]
             (async_boot (Parsed (VArray catalog))) in
  let p1 := mkProcess (snd (post_item_route new_lamp Written (main p))) (flights p) in
  let p2 := async_run sample_NumberToString sample_StringToNumber
              (repeat (AFsEvent "change") 2 ++ [AElapse 300; ASettle 0]) p1 in
  statsCache (main p2)
  = Some (mkStats (S (List.length catalog))
            (arithmetic_mean
               ([Num.of_Z 2499; Num.of_Z 399; Num.of_Z 799] ++ [Num.of_Z 79]))).
Proof.
  apply (posted_item_reaches_stats
           sample_NumberToString sample_StringToNumber
           (Parsed (VArray catalog)) [AStartup; ASettle 0; AElapse 1700] catalog
           [Num.of_Z 2499; Num.of_Z 399; Num.of_Z 799]
           [("name", VString "Lamp"); ("price", VNumber (Num.of_Z 79))]
           (Num.of_Z 79) 2 300).
  - vm_compute. reflexivity.
  - vm_compute. lia.
  - vm_compute. reflexivity.
  - vm_compute. reflexivity.
  - vm_compute. reflexivity.
  - vm_compute. reflexivity.
  - vm_compute. reflexivity.
  - lia.
  - vm_compute. lia.
Defined.

Lemma posted_item_without_price_makes_average_NaN_witness :
  let p := async_run sample_NumberToString sample_StringToNumber
             [AStartup; ASettle 0; AElapse 1700]
             (async_boot (Parsed (VArray catalog))) in
  let p1 := mkProcess (snd (post_item_route new_desk Written (main p))) (flights p) in
  let p2 := async_run sample_NumberToString sample_StringToNumber
              (repeat (AFsEvent "change") 2 ++ [AElapse 300; ASettle 0]) p1 in
  statsCache (main p2) = Some (mkStats (S (List.length catalog)) Num.NaN).
Proof.
  apply (posted_item_without_price_makes_average_NaN
           sample_NumberToString sample_StringToNumber
           (Parsed (VArray catalog)) [AStartup; ASettle 0; AElapse 1700] catalog
           [Num.of_Z 2499; Num.of_Z 399; Num.of_Z 799]
           [("id", VNumber (Num.of_Z 1)); ("name", VString "Desk")] 2 300).
  - vm_compute. reflexivity.
  - vm_compute. lia.
  - vm_compute. reflexivity.
  - vm_compute. reflexivity.
  - vm_compute. reflexivity.
  - vm_compute. reflexivity.
  - lia.
  - vm_compute. lia.
Defined.
